(** * NightDriverStrip: the network-backed matrix effects

    A shallow embedding of [PatternStocks.h] and [PatternWeather.h]: the
    animated text flyers, the stock quote store filled by a background
    task, the weather fields filled by a background task, and the
    per-frame [Draw] entry points that decide when to start a fetch; and
    of [PatternSubscribers.h] and [PatternClock.h]: the task that polls the
    subscriber count, the centring of the count, and the hands and ticks
    of the clock face.

    Conventions of the embedding.
    - [int], [long], [time_t] and [system_clock::time_point] are [Z]
      (no wrap-around: the values are pixel coordinates, icon numbers and
      clock readings).
    - [unsigned long] and [uint8_t], where the source relies on their
      wrap-around ([millis()], the angles of the clock), are [Z] with the
      reduction modulo 2^32 or 256 written out.
    - [float] is [Q]: every finite binary32 value is a rational, and the
      comparisons, [std::min] and [std::max] of the source are exact on
      them.  Rounding of [+], [*] and [/] is not modelled.
    - [std::map<String, StockData>] is a [gmap string StockData]; iteration
      order is recovered by sorting the keys.
    - The FreeRTOS tasks are explicit: a world holds the effect object and
      the list of live tasks, and an event is either one [Draw] call or one
      step of one task.  A step is a statement of the task body; inside the
      two weather requests that assign an icon it is the run of statements
      up to the assignment of the number as parsed, and then the range test
      with what follows it. *)

From Stdlib Require Import ZArith QArith Qabs Qround Lia Lqa Bool List String Ascii.
From stdpp Require Import gmap strings list fin_maps sorting pretty.
From Equations Require Import Equations.

Local Open Scope Z_scope.

(** ** Time and numbers *)

(** A [system_clock::time_point], as its count of clock ticks. *)
Abbreviation time_point := Z (only parsing).

(** [system_clock::period]: libstdc++ counts nanoseconds. *)
Definition ticks_per_second : Z := 1000000000.

(** The chrono literal [Ns] as a [system_clock::duration]. *)
Definition seconds (n : Z) : Z := n * ticks_per_second.

Definition STOCKS_UPDATE_INTERVAL_SECONDS : Z := seconds 10.
Definition STOCKS_FETCH_INTERVAL_SECONDS : Z := seconds 60.
Definition WEATHER_INTERVAL_SECONDS : Z := 10 * 60.

(** [duration_cast<duration<float>>(d).count()]: a tick count in seconds. *)
Definition duration_float (d : Z) : Q := (inject_Z d / inject_Z ticks_per_second)%Q.

(** [std::min(a, b)] is [(b < a) ? b : a]. *)
Definition std_min (a b : Q) : Q := if Qlt_le_dec b a then b else a.

(** [std::max(a, b)] is [(a < b) ? b : a]. *)
Definition std_max (a b : Q) : Q := if Qlt_le_dec a b then b else a.

(** Conversion of a [float] to [int] truncates towards zero. *)
Definition float_to_int (q : Q) : Z :=
  if Qlt_le_dec q 0 then Qceiling q else Qfloor q.

(** [numeric_limits<float>::max()], which is (2^24 - 1) * 2^104. *)
Definition FLT_MAX : Q := inject_Z ((2 ^ 24 - 1) * 2 ^ 104).

(** [String::isEmpty]. *)
Definition isEmpty (s : string) : bool :=
  match s with EmptyString => true | String _ _ => false end.

(** What the build supplies from outside these headers: the panel size of
    [globals.h] and the Arduino constructor [String(float, decimalPlaces)]. *)
Class Build := {
  MATRIX_WIDTH : Z;
  MATRIX_HEIGHT : Z;
  String_of_float : Q -> Z -> string
}.

(** ** PatternStocks.h *)

Module Stocks.

Inductive CRGB := White | Grey | LightGrey | LightGreen | Red | Green | Navy.

(** The graphics calls an effect issues on the shared [GFXBase]; the font is
    always [Apple5x7] and is left out. *)
Inductive DrawCall :=
| FillRect (x y w h : Z) (color : CRGB)
| GfxPrint (x y : Z) (text : string) (color : CRGB)
| DrawLine (x0 y0 x1 y1 : Z) (color : CRGB).

Record AnimatedText := mkAnimatedText {
  startX : Z;
  startY : Z;
  endX : Z;
  endY : Z;
  currentX : Z;
  currentY : Z;
  text : string;
  color : CRGB;
  animationTime : Q;
  startTime : time_point
}.

(** The constructor; [now] is its [system_clock::now()]. *)
Definition AnimatedText_new (now : time_point) (text : string) (color : CRGB)
    (animationTime : Q) (startX startY endX endY : Z) : AnimatedText :=
  {| startX := startX; startY := startY; endX := endX; endY := endY;
     currentX := startX; currentY := startY;
     text := text; color := color;
     animationTime := animationTime; startTime := now |}.

Definition elapsedTime (now : time_point) (a : AnimatedText) : Q :=
  duration_float (now - startTime a).

Definition progress (now : time_point) (a : AnimatedText) : Q :=
  std_min (elapsedTime now a / animationTime a)%Q 1%Q.

(** [startX + (endX - startX) * progress], assigned to an [int]. *)
Definition lerp (from to : Z) (p : Q) : Z :=
  float_to_int (inject_Z from + inject_Z (to - from) * p)%Q.

Definition UpdatePos (now : time_point) (a : AnimatedText) : AnimatedText :=
  let p := progress now a in
  {| startX := startX a; startY := startY a; endX := endX a; endY := endY a;
     currentX := lerp (startX a) (endX a) p;
     currentY := lerp (startY a) (endY a) p;
     text := text a; color := color a;
     animationTime := animationTime a; startTime := startTime a |}.

(** [AnimatedText::Draw]. *)
Definition DrawText (a : AnimatedText) : DrawCall :=
  GfxPrint (currentX a) (currentY a) (text a) (color a).

Record StockPoint := mkStockPoint {
  dt : time_point;
  val : Q
}.

Record StockData := mkStockData {
  symbol : string;
  timestamp : time_point;
  open : Q;
  high : Q;
  low : Q;
  close : Q;
  volume : Q;
  points : list StockPoint
}.

(** [StockData()]: the member initialisers of the class. *)
Definition StockData_default : StockData :=
  {| symbol := EmptyString; timestamp := 0;
     open := 0; high := 0; low := 0; close := 0; volume := 0;
     points := [] |}.

(** *** The quote server's answer

    A deserialized document gives each member as it was found.  The numeric
    accessors [as<float>()] and [as<time_t>()] of ArduinoJson yield zero for
    a member that is absent; the [String] read for ["symbol"] is kept as the
    accessor returned it. *)

Record JsonPoint := mkJsonPoint {
  j_dt : option Z;
  j_val : option Q
}.

Record JsonQuote := mkJsonQuote {
  j_symbol : string;
  j_timestamp : option Z;
  j_open : option Q;
  j_high : option Q;
  j_low : option Q;
  j_close : option Q;
  j_volume : option Q;
  j_points : list JsonPoint
}.

(** One HTTP exchange: the code [http.GET()] returned and, for a payload,
    the outcome of [deserializeJson] ([None] is a [DeserializationError]). *)
Record HttpResponse := mkHttpResponse {
  httpCode : Z;
  payload : option JsonQuote
}.

Definition HTTP_CODE_OK : Z := 200.

Definition as_float (v : option Q) : Q := default 0%Q v.
Definition as_time_t (v : option Z) : Z := default 0 v.

(** [system_clock::from_time_t]. *)
Definition from_time_t (t : Z) : time_point := seconds t.

Definition parsePoint (p : JsonPoint) : StockPoint :=
  {| dt := from_time_t (as_time_t (j_dt p)); val := as_float (j_val p) |}.

Definition parseQuote (doc : JsonQuote) : StockData :=
  {| symbol := j_symbol doc;
     timestamp := from_time_t (as_time_t (j_timestamp doc));
     open := as_float (j_open doc);
     high := as_float (j_high doc);
     low := as_float (j_low doc);
     close := as_float (j_close doc);
     volume := as_float (j_volume doc);
     points := parsePoint <$> j_points doc |}.

(** [GetQuote]: the value handed to the callback. *)
Definition GetQuote (r : HttpResponse) : StockData :=
  if httpCode r =? HTTP_CODE_OK then
    match payload r with
    | Some doc => parseQuote doc
    | None => StockData_default
    end
  else StockData_default.

(** The callback [GetAllQuotes] passes to [GetQuote]. *)
Definition storeQuote (received : StockData) (m : gmap string StockData)
    : gmap string StockData :=
  if negb (isEmpty (symbol received)) then <[symbol received := received]> m
  else m.

(** *** The effect object and its tasks *)

Record PatternStocks := mkPatternStocks {
  textSymbol : AnimatedText;
  textPrice : AnimatedText;
  textChange : AnimatedText;
  textVolume : AnimatedText;
  iCurrentStock : Z;
  isUpdating : bool;
  lastUpdate : time_point;
  nextFetch : time_point;
  stockData : gmap string StockData
}.

(** Where a [FetchQuotesTask] stands.  [Created]: made by [xTaskCreate], not
    yet run.  [Fetching l]: inside [GetAllQuotes], the symbols [l] still to
    ask for.  [Exiting]: past [isUpdating = false], before [vTaskDelete]. *)
Inductive Task :=
| Created
| Fetching (remaining : list string)
| Exiting.

(** [lastCount] is the function-local [static] of [Draw]; [tasks] are the
    live FreeRTOS tasks running [FetchQuotesTask], by task number; [screen]
    is what has been drawn since the last [fillScreen]. *)
Record World := mkWorld {
  fx : PatternStocks;
  lastCount : nat;
  tasks : gmap nat Task;
  screen : list DrawCall
}.

Definition with_fx (f : PatternStocks -> PatternStocks) (w : World) : World :=
  {| fx := f (fx w); lastCount := lastCount w; tasks := tasks w;
     screen := screen w |}.

Definition set_isUpdating (b : bool) (s : PatternStocks) : PatternStocks :=
  {| textSymbol := textSymbol s; textPrice := textPrice s;
     textChange := textChange s; textVolume := textVolume s;
     iCurrentStock := iCurrentStock s; isUpdating := b;
     lastUpdate := lastUpdate s; nextFetch := nextFetch s;
     stockData := stockData s |}.

Definition set_nextFetch (t : time_point) (s : PatternStocks) : PatternStocks :=
  {| textSymbol := textSymbol s; textPrice := textPrice s;
     textChange := textChange s; textVolume := textVolume s;
     iCurrentStock := iCurrentStock s; isUpdating := isUpdating s;
     lastUpdate := lastUpdate s; nextFetch := t;
     stockData := stockData s |}.

Definition set_lastUpdate (t : time_point) (s : PatternStocks) : PatternStocks :=
  {| textSymbol := textSymbol s; textPrice := textPrice s;
     textChange := textChange s; textVolume := textVolume s;
     iCurrentStock := iCurrentStock s; isUpdating := isUpdating s;
     lastUpdate := t; nextFetch := nextFetch s;
     stockData := stockData s |}.

Definition set_iCurrentStock (i : Z) (s : PatternStocks) : PatternStocks :=
  {| textSymbol := textSymbol s; textPrice := textPrice s;
     textChange := textChange s; textVolume := textVolume s;
     iCurrentStock := i; isUpdating := isUpdating s;
     lastUpdate := lastUpdate s; nextFetch := nextFetch s;
     stockData := stockData s |}.

Definition set_stockData (m : gmap string StockData) (s : PatternStocks)
    : PatternStocks :=
  {| textSymbol := textSymbol s; textPrice := textPrice s;
     textChange := textChange s; textVolume := textVolume s;
     iCurrentStock := iCurrentStock s; isUpdating := isUpdating s;
     lastUpdate := lastUpdate s; nextFetch := nextFetch s;
     stockData := m |}.

Definition set_texts (a b c d : AnimatedText) (s : PatternStocks)
    : PatternStocks :=
  {| textSymbol := a; textPrice := b; textChange := c; textVolume := d;
     iCurrentStock := iCurrentStock s; isUpdating := isUpdating s;
     lastUpdate := lastUpdate s; nextFetch := nextFetch s;
     stockData := stockData s |}.

(** *** Splitting the symbol list

    The lambda [split] of [GetAllQuotes]: [std::getline] up to each
    delimiter.  A final token is produced only when characters follow the
    last delimiter. *)

Fixpoint split_go (delimiter : ascii) (s : string) (token : string)
    : list string :=
  match s with
  | EmptyString => if isEmpty token then [] else [token]
  | String c s' =>
      if Ascii.eqb c delimiter then token :: split_go delimiter s' EmptyString
      else split_go delimiter s' (token +:+ String c EmptyString)
  end.

Definition split (s : string) (delimiter : ascii) : list string :=
  split_go delimiter s EmptyString.

(** *** Iterating the map

    [std::map] iterates in key order; [String::operator<] is [strcmp]. *)

Definition key_le (a b : string * StockData) : Prop :=
  Is_true (String.leb a.1 b.1).

#[global] Instance key_le_dec : RelDecision key_le.
Proof. intros a b. unfold key_le. apply _. Defined.

Definition entries (m : gmap string StockData) : list (string * StockData) :=
  merge_sort key_le (map_to_list m).

(** [it = m.begin(); std::advance(it, i); it->second].  Stepping past the
    last entry is undefined in the source; the model yields [None]. *)
Definition advance (m : gmap string StockData) (i : Z) : option StockData :=
  if i <? 0 then None else snd <$> (entries m !! Z.to_nat i).

Section Effect.
Context `{Build}.

(** The symbol list of the build, [cszStockList], is a parameter of the
    task. *)
Variable cszStockList : string.

(** The member initialisers; [now] is the clock at construction. *)
Definition PatternStocks_new (now : time_point) : PatternStocks :=
  {| textSymbol := AnimatedText_new now "STOCK" White 1 MATRIX_WIDTH 0 0 0;
     textPrice := AnimatedText_new now "PRICE" Grey 1 MATRIX_WIDTH 8 0 8;
     textChange := AnimatedText_new now "CHANGE" White 1 MATRIX_WIDTH 16 0 16;
     textVolume := AnimatedText_new now "VOLUME" Grey 1 MATRIX_WIDTH 24 0 24;
     iCurrentStock := 0;
     isUpdating := false;
     lastUpdate := 0;
     nextFetch := now;
     stockData := ∅ |}.

Definition Init (now : time_point) (s : PatternStocks) : PatternStocks :=
  set_lastUpdate now s.

(** The effect constructed at [t0] and initialised at [t1]. *)
Definition boot (t0 t1 : time_point) : World :=
  {| fx := Init t1 (PatternStocks_new t0); lastCount := 0%nat;
     tasks := ∅; screen := [] |}.

(** [xTaskCreate] is taken to succeed; the new task gets an unused number. *)
Definition BackgroundFetchQuotes (w : World) : World :=
  if negb (isUpdating (fx w)) then
    {| fx := set_isUpdating true (fx w); lastCount := lastCount w;
       tasks := <[fresh (dom (tasks w)) := Created]> (tasks w);
       screen := screen w |}
  else w.

(** One statement of [FetchQuotesTask]; [r] answers the [GetQuote] it may
    make.  [None] is the task gone after [vTaskDelete(NULL)]. *)
Definition task_step (r : HttpResponse) (t : Task) (s : PatternStocks)
    : option Task * PatternStocks :=
  match t with
  | Created => (Some (Fetching (split cszStockList ",")), set_isUpdating true s)
  | Fetching (_ :: rest) =>
      (Some (Fetching rest),
       set_stockData (storeQuote (GetQuote r) (stockData s)) s)
  | Fetching [] => (Some Exiting, set_isUpdating false s)
  | Exiting => (None, s)
  end.

Definition StartQuoteDisplay (now : time_point) (data : StockData)
    (s : PatternStocks) : PatternStocks :=
  let pricetext :=
    if Qle_bool 10000 (close data) then String_of_float (close data) 0
    else String_of_float (close data) 2 in
  let pricelen := Z.of_nat (String.length pricetext) in
  let textwidth := 5 in
  let changetext := String_of_float (close data - open data)%Q 2 in
  let changelen := Z.of_nat (String.length changetext) in
  let voltext := String_of_float (volume data) 0 in
  let vollen := Z.of_nat (String.length voltext) in
  set_texts
    (AnimatedText_new now (symbol data) White (1 # 2) (- MATRIX_WIDTH) 8 0 8)
    (AnimatedText_new now pricetext White (3 # 4) (- MATRIX_WIDTH) 8
       (MATRIX_WIDTH - pricelen * textwidth) 8)
    (AnimatedText_new now changetext
       (if Qle_bool (open data) (close data) then LightGreen else Red) 1
       (- MATRIX_WIDTH) 15 (MATRIX_WIDTH - changelen * textwidth) 15)
    (AnimatedText_new now voltext LightGrey 1 (- MATRIX_WIDTH * 2) 22
       (MATRIX_WIDTH - vollen * textwidth) 22)
    s.

(** The first loop of the graph: [max] and [min] over the points drawn. *)
Definition extrema_step (acc : Q * Q) (p : StockPoint) : Q * Q :=
  (std_max (fst acc) (val p), std_min (snd acc) (val p)).

Definition extrema (pts : list StockPoint) : Q * Q :=
  fold_left extrema_step pts (0%Q, FLT_MAX).

(** [n = std::min((uint)MATRIX_WIDTH, points.size())] and the points the
    graph reads, [points[0 .. n-1]]. *)
Definition graph_count (cs : StockData) : Z :=
  Z.min MATRIX_WIDTH (Z.of_nat (length (points cs))).

Definition graph_points (cs : StockData) : list StockPoint :=
  take (Z.to_nat (graph_count cs)) (points cs).

(** The second loop: one vertical segment per pair of neighbours. *)
Fixpoint segments (y h : Z) (min scale breakeven breakevenY : Q) (i : Z)
    (pts : list StockPoint) : list DrawCall :=
  match pts with
  | p :: (q :: _) as rest =>
      let x0 := inject_Z (MATRIX_WIDTH - 1 - i) in
      let y0 := (inject_Z (y + h) - (val p - min) * scale)%Q in
      let x1 := x0 in
      let y1 := (inject_Z (y + h) - (val q - min) * scale)%Q in
      (if Qlt_le_dec (val p) breakeven
       then DrawLine (float_to_int x0) (float_to_int breakevenY)
                     (float_to_int x1) (float_to_int y1) Red
       else DrawLine (float_to_int x0) (float_to_int y0)
                     (float_to_int x1) (float_to_int breakevenY) Green)
      :: segments y h min scale breakeven breakevenY (i + 1) rest
  | _ => []
  end.

Definition graph (cs : StockData) : list DrawCall :=
  let y := 24 in
  let h := MATRIX_HEIGHT - y in
  if 0 <? graph_count cs then
    let '(max, min) := extrema (graph_points cs) in
    let range := (max - min)%Q in
    if Qlt_le_dec 0 range then
      let scale := (inject_Z h / range)%Q in
      let breakeven := open cs in
      let breakevenY := (inject_Z (y + h) - (breakeven - min) * scale)%Q in
      segments y h min scale breakeven breakevenY 0 (graph_points cs)
    else []
  else [].

Definition UpdateQuoteDisplay (now : time_point) (w : World) : World :=
  let s := fx w in
  let a := UpdatePos now (textSymbol s) in
  let b := UpdatePos now (textPrice s) in
  let c := UpdatePos now (textChange s) in
  let d := UpdatePos now (textVolume s) in
  let texts := [DrawText a; DrawText b; DrawText c; DrawText d] in
  let lines :=
    if (size (stockData s) =? 0)%nat then []
    else match advance (stockData s) (iCurrentStock s) with
         | Some currentStock => graph currentStock
         | None => []
         end in
  {| fx := set_texts a b c d s; lastCount := lastCount w; tasks := tasks w;
     screen := screen w ++ texts ++ lines |}.

(** The refresh test of [Draw]. *)
Definition fetch_due (now : time_point) (s : PatternStocks) : bool :=
  nextFetch s <? now.

(** The rotation test of [Draw]. *)
Definition rotate_due (now : time_point) (w : World) : bool :=
  (STOCKS_UPDATE_INTERVAL_SECONDS <=? now - lastUpdate (fx w))
  || negb (size (stockData (fx w)) =? lastCount w)%nat.

Definition rotate (now : time_point) (w : World) : World :=
  let s := set_lastUpdate now (fx w) in
  let count := size (stockData s) in
  let s' :=
    if negb (count =? 0)%nat then
      let i := (iCurrentStock s + 1) mod Z.of_nat count in
      let s1 := set_iCurrentStock i s in
      match advance (stockData s1) i with
      | Some data => StartQuoteDisplay now data s1
      | None => s1
      end
    else s in
  {| fx := s'; lastCount := count; tasks := tasks w; screen := screen w |}.

(** [Draw]; [now] is the clock during the call and [wifi] is
    [WiFi.isConnected()].  [Navy] is the [CRGB(0,0,128)] of the title bar. *)
Definition Draw (now : time_point) (wifi : bool) (w : World) : World :=
  let w0 := {| fx := fx w; lastCount := lastCount w; tasks := tasks w;
               screen := [FillRect 0 0 MATRIX_WIDTH 9 Navy] |} in
  let w1 :=
    if wifi && fetch_due now (fx w0) then
      BackgroundFetchQuotes
        (with_fx (set_nextFetch (now + STOCKS_FETCH_INTERVAL_SECONDS)) w0)
    else w0 in
  let w2 := if rotate_due now w1 then rotate now w1 else w1 in
  UpdateQuoteDisplay now w2.

(** *** Interleavings *)

Inductive Event :=
| Frame (now : time_point) (wifi : bool)
| TaskStep (i : nat) (r : HttpResponse).

(** Task [i] runs its next statement. *)
Definition run_task (i : nat) (r : HttpResponse) (w : World) : World :=
  match tasks w !! i with
  | None => w
  | Some t =>
      let '(t', s') := task_step r t (fx w) in
      {| fx := s'; lastCount := lastCount w;
         tasks := match t' with
                  | Some t' => <[i := t']> (tasks w)
                  | None => delete i (tasks w)
                  end;
         screen := screen w |}
  end.

Definition step (w : World) (e : Event) : World :=
  match e with
  | Frame now wifi => Draw now wifi w
  | TaskStep i r => run_task i r w
  end.

Definition run (w : World) (es : list Event) : World := fold_left step es w.

(** A fetch is outstanding until its task has cleared [isUpdating]. *)
Definition outstanding (t : Task) : bool :=
  match t with
  | Created | Fetching _ => true
  | Exiting => false
  end.

Definition in_flight (w : World) : nat :=
  length (filter (fun kt => outstanding kt.2) (map_to_list (tasks w))).

End Effect.

(** The flag covers every outstanding task, and no two are outstanding. *)
Definition single_flight_inv (w : World) : Prop :=
  (forall h t, tasks w !! h = Some t -> outstanding t = true ->
     isUpdating (fx w) = true) /\
  (forall h1 h2 t1 t2, tasks w !! h1 = Some t1 -> tasks w !! h2 = Some t2 ->
     outstanding t1 = true -> outstanding t2 = true -> h1 = h2).

(** The durations of the four texts are positive. *)
Definition positive_durations (s : PatternStocks) : Prop :=
  (0 < animationTime (textSymbol s))%Q /\ (0 < animationTime (textPrice s))%Q /\
  (0 < animationTime (textChange s))%Q /\ (0 < animationTime (textVolume s))%Q.

(** The durations are positive and the rotation index is zero or inside
    the map. *)
Definition wellformed (w : World) : Prop :=
  positive_durations (fx w) /\
  0 <= iCurrentStock (fx w) /\
  (iCurrentStock (fx w) = 0 \/
   iCurrentStock (fx w) < Z.of_nat (size (stockData (fx w)))).

(** *** The whole list of symbols *)

(** [GetAllQuotes] on the answers of the server to its requests, in the
    order of the symbols: the callback stores each. *)
Definition GetAllQuotes (answers : list HttpResponse)
    (m : gmap string StockData) : gmap string StockData :=
  fold_left (fun m r => storeQuote (GetQuote r) m) answers m.

(** The last character of a text is [c]. *)
Fixpoint ends_with (c : ascii) (s : string) : bool :=
  match s with
  | EmptyString => false
  | String a EmptyString => Ascii.eqb a c
  | String _ s' => ends_with c s'
  end.


End Stocks.

(** ** PatternWeather.h *)

Module Weather.

(** The icon table.  The initialiser has no comma between the ninth and the
    tenth literal, so the two are one element and the array has thirteen. *)
Definition pszWeatherIcons : list string :=
  [ EmptyString;
    "/bmp/clearsky.jpg";
    "/bmp/fewclouds.jpg";
    "/bmp/scatteredclouds.jpg";
    "/bmp/brokenclouds.jpg";
    "/bmp/testcloud.jpg";
    EmptyString;
    EmptyString;
    EmptyString +:+ "/bmp/showerrain.jpg";
    "/bmp/rain.jpg";
    "/bmp/thunderstorm.jpg";
    EmptyString;
    "/bmp/snow.jpg" ]%string.

(** The macro [ARRAYSIZE] of [globals.h]: the number of elements. *)
Definition ARRAYSIZE {A} (a : list A) : Z := Z.of_nat (length a).

(** *** [String::toInt], which is [atol]: blanks, a sign, decimal digits

    The result is a [long], which has 32 bits here; a number outside of it
    comes out as the nearer end of the range. *)

Definition isspace (c : ascii) : bool :=
  let n := N_of_ascii c in ((n =? 32) || ((9 <=? n) && (n <=? 13)))%N.

Definition digit_of (c : ascii) : option Z :=
  let n := Z.of_N (N_of_ascii c) in
  if (48 <=? n) && (n <=? 57) then Some (n - 48) else None.

Fixpoint skip_space (s : string) : string :=
  match s with
  | String c s' => if isspace c then skip_space s' else s
  | EmptyString => s
  end.

Fixpoint digits (s : string) (acc : Z) : Z :=
  match s with
  | String c s' =>
      match digit_of c with
      | Some d => digits s' (10 * acc + d)
      | None => acc
      end
  | EmptyString => acc
  end.

Definition LONG_MAX : Z := 2 ^ 31 - 1.
Definition LONG_MIN : Z := - 2 ^ 31.

Definition saturate (z : Z) : Z := Z.max LONG_MIN (Z.min LONG_MAX z).

Definition toInt (s : string) : Z :=
  saturate
    match skip_space s with
    | String "-" s' => - digits s' 0
    | String "+" s' => digits s' 0
    | s' => digits s' 0
    end.

(** *** Collaborators *)

(** What [g_aptrDeviceConfig] answers at the time of a call. *)
Record DeviceConfig := mkDeviceConfig {
  GetLocation : string;
  GetCountryCode : string;
  IsLocationZip : bool;
  GetOpenWeatherAPIKey : string;
  UseCelsius : bool
}.

(** The geocoding exchange: the code of [http.GET()] and the two [String]s
    read from the document. *)
Record GeoResponse := mkGeoResponse {
  geo_code : Z;
  geo_lat : string;
  geo_lon : string
}.

(** The current-weather exchange.  The result of [deserializeJson] is not
    looked at, so a body that is not the expected JSON is a document whose
    members are absent. *)
Record WeatherResponse := mkWeatherResponse {
  w_code : Z;
  main_temp : option Q;
  main_temp_max : option Q;
  main_temp_min : option Q;
  weather_icon : string;
  name : option string
}.

Record ForecastEntry := mkForecastEntry {
  dt_txt : string;
  entry_temp_max : option Q;
  entry_temp_min : option Q;
  entry_icon : string
}.

(** The forecast exchange; [dateStr] is tomorrow's date as [strftime]
    printed it. *)
Record ForecastResponse := mkForecastResponse {
  f_code : Z;
  list_entries : list ForecastEntry;
  dateStr : string
}.

(** The answers of the network to whatever one task statement asks. *)
Record Net := mkNet {
  geo : GeoResponse;
  today : WeatherResponse;
  forecast : ForecastResponse
}.

(** *** The effect object *)

Abbreviation TaskHandle := nat (only parsing).

Record PatternWeather := mkPatternWeather {
  strLocationName : string;
  strLocation : string;
  strCountryCode : string;
  strLatitude : string;
  strLongitude : string;
  dayOfWeek : Z;
  iconToday : Z;
  iconTomorrow : Z;
  temperature : Q;
  pressure : Q;
  highToday : Q;
  loToday : Q;
  highTomorrow : Q;
  loTomorrow : Q;
  dataReady : bool;
  weatherTask : option TaskHandle;
  updateInProgress : bool;
  latestUpdate : Z
}.

Definition PatternWeather_new : PatternWeather :=
  {| strLocationName := EmptyString; strLocation := EmptyString;
     strCountryCode := EmptyString;
     strLatitude := "0.0"; strLongitude := "0.0";
     dayOfWeek := 0; iconToday := -1; iconTomorrow := -1;
     temperature := 0; pressure := 0; highToday := 0; loToday := 0;
     highTomorrow := 0; loTomorrow := 0;
     dataReady := false; weatherTask := None; updateInProgress := false;
     latestUpdate := 0 |}.

Definition set_coordinates (lat lon loc country : string) (s : PatternWeather)
    : PatternWeather :=
  {| strLocationName := strLocationName s; strLocation := loc;
     strCountryCode := country; strLatitude := lat; strLongitude := lon;
     dayOfWeek := dayOfWeek s; iconToday := iconToday s;
     iconTomorrow := iconTomorrow s; temperature := temperature s;
     pressure := pressure s; highToday := highToday s; loToday := loToday s;
     highTomorrow := highTomorrow s; loTomorrow := loTomorrow s;
     dataReady := dataReady s; weatherTask := weatherTask s;
     updateInProgress := updateInProgress s; latestUpdate := latestUpdate s |}.

Definition set_today (locname : string) (icon : Z) (temp hi lo : Q)
    (ready : bool) (s : PatternWeather) : PatternWeather :=
  {| strLocationName := locname; strLocation := strLocation s;
     strCountryCode := strCountryCode s; strLatitude := strLatitude s;
     strLongitude := strLongitude s;
     dayOfWeek := dayOfWeek s; iconToday := icon;
     iconTomorrow := iconTomorrow s; temperature := temp;
     pressure := pressure s; highToday := hi; loToday := lo;
     highTomorrow := highTomorrow s; loTomorrow := loTomorrow s;
     dataReady := ready; weatherTask := weatherTask s;
     updateInProgress := updateInProgress s; latestUpdate := latestUpdate s |}.

Definition set_tomorrow (icon : Z) (hi lo : Q) (s : PatternWeather)
    : PatternWeather :=
  {| strLocationName := strLocationName s; strLocation := strLocation s;
     strCountryCode := strCountryCode s; strLatitude := strLatitude s;
     strLongitude := strLongitude s;
     dayOfWeek := dayOfWeek s; iconToday := iconToday s;
     iconTomorrow := icon; temperature := temperature s;
     pressure := pressure s; highToday := highToday s; loToday := loToday s;
     highTomorrow := hi; loTomorrow := lo;
     dataReady := dataReady s; weatherTask := weatherTask s;
     updateInProgress := updateInProgress s; latestUpdate := latestUpdate s |}.

Definition set_task (task : option TaskHandle) (busy : bool) (latest : Z)
    (s : PatternWeather) : PatternWeather :=
  {| strLocationName := strLocationName s; strLocation := strLocation s;
     strCountryCode := strCountryCode s; strLatitude := strLatitude s;
     strLongitude := strLongitude s;
     dayOfWeek := dayOfWeek s; iconToday := iconToday s;
     iconTomorrow := iconTomorrow s; temperature := temperature s;
     pressure := pressure s; highToday := highToday s; loToday := loToday s;
     highTomorrow := highTomorrow s; loTomorrow := loTomorrow s;
     dataReady := dataReady s; weatherTask := task;
     updateInProgress := busy; latestUpdate := latest |}.

(** The two conversions, on exact rationals; the source rounds their
    results to binary32. *)
Definition KelvinToFarenheit (K : Q) : Q :=
  ((K - (27315 # 100)) * (9 # 1) / (5 # 1) + (32 # 1))%Q.

Definition KelvinToCelsius (K : Q) : Q := (K - (27315 # 100))%Q.

Definition KelvinToLocal (cfg : DeviceConfig) (K : Q) : Q :=
  if UseCelsius cfg then KelvinToCelsius K else KelvinToFarenheit K.

Definition HasLocationChanged (cfg : DeviceConfig) (s : PatternWeather) : bool :=
  negb (String.eqb (strLocation s) (GetLocation cfg))
  || negb (String.eqb (strCountryCode s) (GetCountryCode cfg)).

Definition updateCoordinates (cfg : DeviceConfig) (r : GeoResponse)
    (s : PatternWeather) : bool * PatternWeather :=
  if negb (HasLocationChanged cfg s) then (false, s)
  else if geo_code r <=? 0 then (false, s)
  else (true, set_coordinates (geo_lat r) (geo_lon r)
                (GetLocation cfg) (GetCountryCode cfg) s).

(** A JSON member compared with [0]: absent members compare false. *)
Definition positive_member (v : option Q) : bool :=
  match v with
  | Some x => if Qlt_le_dec 0 x then true else false
  | None => false
  end.

(** A JSON member converted to [float]: absent members convert to zero. *)
Definition as_float (v : option Q) : Q := default 0%Q v.

(** The range test applied to both icon numbers. *)
Definition checked_icon (icon : Z) : Z :=
  if (icon <? 1) || (ARRAYSIZE pszWeatherIcons <=? icon) then -1 else icon.

Definition getWeatherData (cfg : DeviceConfig) (r : WeatherResponse)
    (s : PatternWeather) : bool * PatternWeather :=
  if 0 <? w_code r then
    (true,
     set_today
       (match name r with Some pszName => pszName | None => strLocationName s end)
       (checked_icon (toInt (weather_icon r)))
       (KelvinToLocal cfg (as_float (main_temp r)))
       (KelvinToLocal cfg (as_float (main_temp_max r)))
       (KelvinToLocal cfg (as_float (main_temp_min r)))
       (if positive_member (main_temp r) then true else dataReady s)
       s)
  else (false, s).

(** The body of [getWeatherData] on a positive status, in the two parts
    that a frame can tell apart by the icon: as far as
    [iconToday = iconIndex.toInt()], where the member holds the number as it
    was parsed, and from the range test on.  The second after the first is
    [getWeatherData]. *)
Definition getWeatherData_store (cfg : DeviceConfig) (r : WeatherResponse)
    (s : PatternWeather) : PatternWeather :=
  set_today
    (strLocationName s)
    (toInt (weather_icon r))
    (KelvinToLocal cfg (as_float (main_temp r)))
    (KelvinToLocal cfg (as_float (main_temp_max r)))
    (KelvinToLocal cfg (as_float (main_temp_min r)))
    (if positive_member (main_temp r) then true else dataReady s)
    s.

Definition getWeatherData_check (pszName : option string) (s : PatternWeather)
    : PatternWeather :=
  set_today
    (match pszName with Some pszName => pszName | None => strLocationName s end)
    (checked_icon (iconToday s))
    (temperature s) (highToday s) (loToday s) (dataReady s) s.

(** [getTomorrowTemps(highTomorrow, loTomorrow)]: the first entry of the
    list whose [dt_txt] starts with tomorrow's date decides. *)
Definition getTomorrowTemps (cfg : DeviceConfig) (r : ForecastResponse)
    (s : PatternWeather) : bool * PatternWeather :=
  if 0 <? f_code r then
    (true,
     match List.find (fun e => String.prefix (dateStr r) (dt_txt e))
                     (list_entries r) with
     | Some e =>
         set_tomorrow
           (checked_icon (toInt (entry_icon e)))
           (if positive_member (entry_temp_max e)
            then KelvinToLocal cfg (as_float (entry_temp_max e))
            else highTomorrow s)
           (if positive_member (entry_temp_min e)
            then KelvinToLocal cfg (as_float (entry_temp_min e))
            else loTomorrow s)
           s
     | None => set_tomorrow (-1) (highTomorrow s) (loTomorrow s) s
     end)
  else (false, s).

(** The entry that decides, and the body for it in two parts as for
    [getWeatherData]: as far as [iconTomorrow = iconIdTomorrow.toInt()], and
    the range test. *)
Definition tomorrow_entry (r : ForecastResponse) : option ForecastEntry :=
  List.find (fun e => String.prefix (dateStr r) (dt_txt e)) (list_entries r).

Definition getTomorrowTemps_store (cfg : DeviceConfig) (e : ForecastEntry)
    (s : PatternWeather) : PatternWeather :=
  set_tomorrow
    (toInt (entry_icon e))
    (if positive_member (entry_temp_max e)
     then KelvinToLocal cfg (as_float (entry_temp_max e))
     else highTomorrow s)
    (if positive_member (entry_temp_min e)
     then KelvinToLocal cfg (as_float (entry_temp_min e))
     else loTomorrow s)
    s.

Definition getTomorrowTemps_check (s : PatternWeather) : PatternWeather :=
  set_tomorrow (checked_icon (iconTomorrow s)) (highTomorrow s) (loTomorrow s) s.

(** *** The task and the frame *)

(** Where an [UpdateWeather] task stands, named by the statement it has just
    finished.  [Created] has not run yet, [GotCoordinates] is after
    [updateCoordinates], [StoredToday pszName] is inside [getWeatherData]
    after [iconToday = iconIndex.toInt()], with [pszName] the name member of
    the document in hand, [GotToday ok] after [getWeatherData] returned
    [ok], [StoredTomorrow] is inside [getTomorrowTemps] after
    [iconTomorrow = iconIdTomorrow.toInt()], [Finishing] after the
    conditional around [getTomorrowTemps], [HoldingHandle task] after
    [auto task = pObj->weatherTask], [HandleCleared task] after
    [weatherTask = nullptr] and [Exiting task] after
    [updateInProgress = false], before [vTaskDelete(task)]. *)
Inductive Task :=
| Created
| GotCoordinates
| StoredToday (pszName : option string)
| GotToday (ok : bool)
| StoredTomorrow
| Finishing
| HoldingHandle (task : option TaskHandle)
| HandleCleared (task : option TaskHandle)
| Exiting (task : option TaskHandle).

Inductive DrawCall :=
| FillRect (x y w h : Z)
| DrawJpg (x y : Z) (filename : string).

(** [fault] records that some read of [pszWeatherIcons] was past its end. *)
Record World := mkWorld {
  fx : PatternWeather;
  tasks : gmap TaskHandle Task;
  screen : list DrawCall;
  fault : bool
}.

Definition boot : World :=
  {| fx := PatternWeather_new; tasks := ∅; screen := []; fault := false |}.

(** One step of [UpdateWeather], from one of these points to the next: the
    effect object after it and the new position of the task.  The statements
    of a request that come before the icon is assigned are one step; so are
    the range test and what follows it in the call.  The last statement,
    [vTaskDelete], acts on the task table and is in [run_task]. *)
Definition task_step (cfg : DeviceConfig) (net : Net) (t : Task)
    (s : PatternWeather) : PatternWeather * Task :=
  match t with
  | Created => ((updateCoordinates cfg (geo net) s).2, GotCoordinates)
  | GotCoordinates =>
      if 0 <? w_code (today net)
      then (getWeatherData_store cfg (today net) s,
            StoredToday (name (today net)))
      else (s, GotToday false)
  | StoredToday pszName => (getWeatherData_check pszName s, GotToday true)
  | GotToday true =>
      if 0 <? f_code (forecast net) then
        match tomorrow_entry (forecast net) with
        | Some e => (getTomorrowTemps_store cfg e s, StoredTomorrow)
        | None => ((getTomorrowTemps cfg (forecast net) s).2, Finishing)
        end
      else (s, Finishing)
  | GotToday false => (s, Finishing)
  | StoredTomorrow => (getTomorrowTemps_check s, Finishing)
  | Finishing => (s, HoldingHandle (weatherTask s))
  | HoldingHandle task =>
      (set_task None (updateInProgress s) (latestUpdate s) s, HandleCleared task)
  | HandleCleared task =>
      (set_task (weatherTask s) false (latestUpdate s) s, Exiting task)
  | Exiting task => (s, Exiting task)
  end.

(** [vTaskDelete(task)] called by the task [self]: a null handle deletes the
    caller. *)
Definition vTaskDelete (self : TaskHandle) (task : option TaskHandle)
    (ts : gmap TaskHandle Task) : gmap TaskHandle Task :=
  match task with
  | Some h => delete h ts
  | None => delete self ts
  end.

Definition run_task (self : TaskHandle) (cfg : DeviceConfig) (net : Net)
    (w : World) : World :=
  match tasks w !! self with
  | None => w
  | Some (Exiting task) =>
      {| fx := fx w; tasks := vTaskDelete self task (tasks w);
         screen := screen w; fault := fault w |}
  | Some t =>
      let '(s', t') := task_step cfg net t (fx w) in
      {| fx := s'; tasks := <[self := t']> (tasks w);
         screen := screen w; fault := fault w |}
  end.

(** The refresh test of [Draw]; [timing] is what the [CEveryNSeconds]
    object of FastLED answered and [now] is [time()]. *)
Definition refresh_due (timing : bool) (cfg : DeviceConfig) (now : Z)
    (s : PatternWeather) : bool :=
  (timing || HasLocationChanged cfg s) && (30 <=? now - latestUpdate s).

(** The guarded spawn inside the refresh test.  [xTaskCreatePinnedToCore]
    is taken to succeed and stores an unused handle in [weatherTask]. *)
Definition spawn (now : Z) (w : World) : World :=
  if negb (updateInProgress (fx w)) && bool_decide (weatherTask (fx w) = None)
  then
    let h := fresh (dom (tasks w)) in
    {| fx := set_task (Some h) true now (fx w);
       tasks := <[h := Created]> (tasks w);
       screen := screen w; fault := fault w |}
  else w.

(** One of the two icon blocks of [Draw]: [None] is a read past the end of
    the table. *)
Definition draw_icon (x : Z) (icon : Z) : option (list DrawCall) :=
  if 0 <=? icon then
    match pszWeatherIcons !! Z.to_nat icon with
    | Some filename =>
        Some (if negb (isEmpty filename) then [DrawJpg x 10 filename] else [])
    | None => None
    end
  else Some [].

(** [Draw], up to the two icons; the text that follows them reads the
    fields and changes nothing. *)
Definition Draw `{Build} (now : Z) (wifi timing : bool) (cfg : DeviceConfig)
    (w : World) : World :=
  let xHalf := MATRIX_WIDTH / 2 - 1 in
  let w1 :=
    if wifi && refresh_due timing cfg now (fx w) then spawn now w else w in
  let today := draw_icon 0 (iconToday (fx w1)) in
  let tomorrow := draw_icon (xHalf + 1) (iconTomorrow (fx w1)) in
  {| fx := fx w1; tasks := tasks w1;
     screen := FillRect 0 0 MATRIX_WIDTH 9
               :: default [] today ++ default [] tomorrow;
     fault := fault w1 || negb (bool_decide (is_Some today))
              || negb (bool_decide (is_Some tomorrow)) |}.

Inductive Event :=
| Frame (now : Z) (wifi timing : bool) (cfg : DeviceConfig)
| TaskStep (self : TaskHandle) (cfg : DeviceConfig) (net : Net).

Definition step `{Build} (w : World) (e : Event) : World :=
  match e with
  | Frame now wifi timing cfg => Draw now wifi timing cfg w
  | TaskStep self cfg net => run_task self cfg net w
  end.

Definition run `{Build} (w : World) (es : list Event) : World :=
  fold_left step es w.

(** A fetch is outstanding until its task has cleared [updateInProgress]. *)
Definition outstanding (t : Task) : bool :=
  match t with
  | Exiting _ => false
  | _ => true
  end.

Definition in_flight (w : World) : nat :=
  length (filter (fun kt => outstanding kt.2) (map_to_list (tasks w))).

(** Both icon numbers are [-1] or index the table from its second element. *)
Definition icon_ok (icon : Z) : Prop :=
  icon = -1 \/ 1 <= icon < ARRAYSIZE pszWeatherIcons.

(** Whether a frame gets as far as creating the task. *)
Definition spawns (now : Z) (wifi timing : bool) (cfg : DeviceConfig)
    (w : World) : bool :=
  wifi && refresh_due timing cfg now (fx w)
  && (negb (updateInProgress (fx w)) && bool_decide (weatherTask (fx w) = None)).

(** The flag covers every outstanding task, and no two are outstanding. *)
Definition single_flight_inv (w : World) : Prop :=
  (forall h t, tasks w !! h = Some t -> outstanding t = true ->
     updateInProgress (fx w) = true) /\
  (forall h1 h2 t1 t2, tasks w !! h1 = Some t1 -> tasks w !! h2 = Some t2 ->
     outstanding t1 = true -> outstanding t2 = true -> h1 = h2).

(** *** A task on its way

    The number of steps a task has left at most, and what holds of the
    task [h] from its creation in [w0] to its end: the other tasks and
    [latestUpdate] are as in [w0], and the handle is in [weatherTask] until
    the task has copied it. *)
Definition steps_left (t : Task) : nat :=
  match t with
  | Created => 9
  | GotCoordinates => 8
  | StoredToday _ => 7
  | GotToday _ => 6
  | StoredTomorrow => 5
  | Finishing => 4
  | HoldingHandle _ => 3
  | HandleCleared _ => 2
  | Exiting _ => 1
  end.

Definition on_its_way (h : TaskHandle) (w0 w : World) (t : Task) : Prop :=
  tasks w !! h = Some t /\
  delete h (tasks w) = delete h (tasks w0) /\
  latestUpdate (fx w) = latestUpdate (fx w0) /\
  match t with
  | HoldingHandle task => task = Some h
  | HandleCleared task => task = Some h /\ weatherTask (fx w) = None
  | Exiting task =>
      task = Some h /\ weatherTask (fx w) = None /\
      updateInProgress (fx w) = false
  | _ => weatherTask (fx w) = Some h
  end.

Definition at_its_end (h : TaskHandle) (w0 w : World) : Prop :=
  tasks w = delete h (tasks w0) /\
  updateInProgress (fx w) = false /\
  weatherTask (fx w) = None /\
  latestUpdate (fx w) = latestUpdate (fx w0).

(** *** Texts of digits *)

(** The decimal digits [ds] as a text. *)
Definition number (ds : list Z) : string :=
  string_of_list_ascii ((fun d => ascii_of_N (Z.to_N (48 + d))) <$> ds).

Definition not_a_digit (s : string) : Prop :=
  match s with
  | EmptyString => True
  | String c _ => digit_of c = None
  end.

End Weather.

(** ** PatternSubscribers.h *)

Module Subscribers.

Definition SUB_CHECK_ERROR_INTERVAL : Z := 20000.

(** [unsigned long] has 32 bits on the ESP32; [millis()] counts modulo
    this. *)
Definition ULONG_RANGE : Z := 2 ^ 32.

(** [sight] is the [YouTubeSight] client, kept as the channel it was built
    for; [None] is the null pointer. *)
Record PatternSubscribers := mkPatternSubscribers {
  subscribers : Z;
  views : Z;
  strChannelGuid : string;
  millisLastCheck : Z;
  succeededBefore : bool;
  sight : option string
}.

(** The member initialisers; [millisLastCheck] has none and starts with
    whatever the memory holds. *)
Definition PatternSubscribers_new (millisLastCheck : Z) : PatternSubscribers :=
  {| subscribers := 0; views := 0; strChannelGuid := EmptyString;
     millisLastCheck := millisLastCheck; succeededBefore := false;
     sight := None |}.

(** What [sight->getData()] left in [channelStats]; [None] is a call that
    returned false. *)
Record ChannelStats := mkChannelStats {
  subscribers_count : string;
  stats_views : string
}.

Definition UpdateGuid (configChannelGuid : string) (s : PatternSubscribers)
    : bool * PatternSubscribers :=
  if String.eqb (strChannelGuid s) configChannelGuid then (false, s)
  else (true,
        {| subscribers := subscribers s; views := views s;
           strChannelGuid := configChannelGuid;
           millisLastCheck := millisLastCheck s; succeededBefore := false;
           sight := sight s |}).

Section Task.

(** [urlEncode] of the UrlEncode library and the interval macro
    [SUBCHECK_INTERVAL], which this header uses and does not define (the
    macro it defines is [SUB_CHECK_INTERVAL]); the comparison with it is
    the one on the integers, as for a constant from 0 to 2^32 - 1. *)
Variable urlEncode : string -> string.
Variable SUBCHECK_INTERVAL : Z.

(** [UpdateSubscribers], from the point where WiFi is connected; [now] is
    the [millis()] read there.  The second component is the channel the
    request went out for. *)
Definition UpdateSubscribers (useNewSight : bool) (now : Z)
    (answer : option ChannelStats) (s : PatternSubscribers)
    : PatternSubscribers * string :=
  let client :=
    match sight s with
    | Some c => if useNewSight then urlEncode (strChannelGuid s) else c
    | None => urlEncode (strChannelGuid s)
    end in
  (match answer with
   | Some stats =>
       {| subscribers := Weather.toInt (subscribers_count stats);
          views := Weather.toInt (stats_views stats);
          strChannelGuid := strChannelGuid s;
          millisLastCheck := now; succeededBefore := true;
          sight := Some client |}
   | None =>
       {| subscribers := subscribers s; views := views s;
          strChannelGuid := strChannelGuid s;
          millisLastCheck := now; succeededBefore := succeededBefore s;
          sight := Some client |}
   end, client).

(** [millis() - millisLastCheck] in [unsigned long]. *)
Definition millisSince (now last : Z) : Z := (now - last) mod ULONG_RANGE.

(** The test of the task loop. *)
Definition check_due (guidUpdated : bool) (now : Z) (s : PatternSubscribers)
    : bool :=
  guidUpdated || (millisLastCheck s =? 0)
  || (negb (succeededBefore s)
      && (SUB_CHECK_ERROR_INTERVAL <? millisSince now (millisLastCheck s)))
  || (SUBCHECK_INTERVAL <? millisSince now (millisLastCheck s)).

(** One turn of the loop of [SightTaskEntryPoint]: [now] is the [millis()]
    of the loop, [now'] the one inside [UpdateSubscribers].  The second
    component is the channel of the request, if one was made. *)
Record Turn := mkTurn {
  configChannelGuid : string;
  turn_now : Z;
  turn_now' : Z;
  answer : option ChannelStats
}.

Definition turn (t : Turn) (s : PatternSubscribers)
    : PatternSubscribers * option string :=
  let '(guidUpdated, s1) := UpdateGuid (configChannelGuid t) s in
  if check_due guidUpdated (turn_now t) s1 then
    let '(s2, channel) := UpdateSubscribers guidUpdated (turn_now' t) (answer t) s1 in
    (s2, Some channel)
  else (s1, None).

Definition turns (ts : list Turn) (s : PatternSubscribers) : PatternSubscribers :=
  fold_left (fun s t => (turn t s).1) ts s.

(** The client, once built, is the one for the channel on record. *)
Definition sight_ok (s : PatternSubscribers) : Prop :=
  forall c, sight s = Some c -> c = urlEncode (strChannelGuid s).

End Task.

(** *** Centring the count *)

(** [while (z/=10) x -= CHAR_WIDTH / 2;] with [CHAR_WIDTH] 6. *)
Equations? center_loop (z x : Z) : Z by wf (Z.abs_nat z) lt :=
  center_loop z x with Z.eq_dec (Z.quot z 10) 0 => {
    | left _ := x;
    | right _ := center_loop (Z.quot z 10) (x - Z.quot 6 2) }.
Proof.
  apply Nat2Z.inj_lt. rewrite !Zabs2Nat.id_abs.
  rewrite <- Z.quot_abs by lia. change (Z.abs 10) with 10.
  assert (z <> 0) by (intros ->; contradiction).
  apply Z.quot_lt; lia.
Qed.

Inductive DrawCall :=
| DrawString (x y : Z) (white : bool) (text : string).

(** The count part of [Draw]: four black copies around one white. *)
Definition Draw `{Build} (s : PatternSubscribers) : list DrawCall :=
  let CHAR_WIDTH := 6 in
  let CHAR_HEIGHT := 7 in
  let x0 := Z.quot MATRIX_WIDTH 2 - Z.quot CHAR_WIDTH 2 in
  let y := Z.quot MATRIX_HEIGHT 2 - Z.quot CHAR_HEIGHT 2 - 3 in
  let x := center_loop (subscribers s) x0 in
  let pszText := pretty (subscribers s) in
  [ DrawString (x - 1) y false pszText;
    DrawString (x + 1) y false pszText;
    DrawString x (y - 1) false pszText;
    DrawString x (y + 1) false pszText;
    DrawString x y true pszText ].

End Subscribers.

(** ** PatternClock.h *)

Module Clock.

(** Conversion to [uint8_t]. *)
Definition uint8 (z : Z) : Z := z mod 256.

Inductive CRGB := Blue | Yellow | White | Green | Red.

(** The radius of [DrawSafeCircle] is the expression as the source passes
    it. *)
Inductive DrawCall :=
| Clear
| DrawSafeCircle (x y : Z) (r : Q) (colour : CRGB)
| DrawLine (x0 y0 x1 y1 : Z) (colour : CRGB).

(** The fields of [struct tm] that [Draw] reads. *)
Record tm := mktm {
  tm_hour : Z;
  tm_min : Z;
  tm_sec : Z
}.

(** The result type of [cos8], [sin8] and [sin8_C] is [uint8_t]. *)
Definition is_byte (f : Z -> Z) : Prop := forall a, 0 <= f a <= 255.

Section Effect.

Context `{Build}.

(** FastLED's [cos8], [sin8] and [sin8_C], and the centre macros of the
    build. *)
Variables cos8 sin8 sin8_C : Z -> Z.
Variables MATRIX_CENTER_X MATRIX_CENTER_Y : Z.

(** [std::min] is on [int] here. *)
Definition radius : Q :=
  (inject_Z (Z.quot (Z.min MATRIX_WIDTH MATRIX_HEIGHT) 2) - (1 # 2))%Q.

Definition hourAngle (hours : Z) : Z := uint8 (Z.rem hours 12 * 21).
Definition minuteAngle (minutes : Z) : Z := uint8 (minutes * 4).
Definition secondAngle (seconds : Z) : Z := uint8 (seconds * 4).

(** [centre + (len * (wave - 128) / den)], converted to [int]. *)
Definition tip (centre : Z) (len : Q) (wave den : Z) : Z :=
  float_to_int (inject_Z centre + len * inject_Z (wave - 128) / inject_Z den)%Q.

(** [centre - (len * (wave - 128) / den)], converted to [int]. *)
Definition tip_up (centre : Z) (len : Q) (wave den : Z) : Z :=
  float_to_int (inject_Z centre - len * inject_Z (wave - 128) / inject_Z den)%Q.

Definition tick (z : Z) : DrawCall :=
  let angle := uint8 z in
  let x2 := tip MATRIX_CENTER_X (radius - 4) (sin8_C angle) 128 in
  let y2 := tip_up MATRIX_CENTER_Y (radius - 4) (cos8 angle) 128 in
  let x3 := tip MATRIX_CENTER_X (radius - 1) (sin8_C angle) 128 in
  let y3 := tip_up MATRIX_CENTER_Y (radius - 1) (cos8 angle) 128 in
  DrawLine x2 y2 x3 y3 Red.

(** [for (int z = ...; z < 12*21; z += 21)], from the value of [z]. *)
Equations? tick_loop (z : Z) : list DrawCall by wf (Z.to_nat (12 * 21 - z)) lt :=
  tick_loop z with Z_lt_dec z (12 * 21) => {
    | left _ := tick z :: tick_loop (z + 21);
    | right _ := [] }.
Proof. lia. Qed.

Definition Draw (localTime : tm) : list DrawCall :=
  let hours := tm_hour localTime in
  let minutes := tm_min localTime in
  let seconds := tm_sec localTime in
  let hourX := tip MATRIX_CENTER_X ((radius - 3) * 3) (cos8 (hourAngle hours)) 512 in
  let hourY := tip MATRIX_CENTER_Y ((radius - 3) * 3) (sin8_C (hourAngle hours)) 512 in
  let minuteX := tip MATRIX_CENTER_X radius (cos8 (minuteAngle minutes)) 128 in
  let minuteY := tip MATRIX_CENTER_Y radius (sin8 (minuteAngle minutes)) 128 in
  let secondX := tip MATRIX_CENTER_X radius (cos8 (secondAngle seconds)) 128 in
  let secondY := tip MATRIX_CENTER_Y radius (sin8 (secondAngle seconds)) 128 in
  [ Clear;
    DrawSafeCircle (Z.quot MATRIX_WIDTH 2) (Z.quot MATRIX_HEIGHT 2) 1 Blue;
    DrawLine MATRIX_CENTER_X MATRIX_CENTER_Y hourX hourY Yellow;
    DrawLine MATRIX_CENTER_X MATRIX_CENTER_Y minuteX minuteY Yellow;
    DrawLine MATRIX_CENTER_X MATRIX_CENTER_Y secondX secondY White;
    DrawSafeCircle (Z.quot MATRIX_WIDTH 2) (Z.quot MATRIX_HEIGHT 2) radius Blue;
    DrawSafeCircle (Z.quot MATRIX_WIDTH 2) (Z.quot MATRIX_HEIGHT 2) (radius + 1) Green ]
  ++ tick_loop 0.

(** Half the shorter side of the panel, and the square of that half-side
    around a centre. *)
Definition half_side : Z := Z.quot (Z.min MATRIX_WIDTH MATRIX_HEIGHT) 2.

Definition near (centre x : Z) : Prop :=
  centre - half_side <= x <= centre + half_side.

Definition on_the_face (call : DrawCall) : Prop :=
  match call with
  | DrawLine x0 y0 x1 y1 _ =>
      near MATRIX_CENTER_X x0 /\ near MATRIX_CENTER_Y y0 /\
      near MATRIX_CENTER_X x1 /\ near MATRIX_CENTER_Y y1
  | _ => True
  end.

End Effect.

End Clock.

(** ** A build to run the model on

    The 64 by 32 panel, with [String(float, decimalPlaces)] printing the
    value rounded to that many decimals. *)

Definition pad_zeros (width : nat) (s : string) : string :=
  String.concat EmptyString (replicate (width - String.length s) "0"%string) +:+ s.

Definition String_of_float_decimal (value : Q) (decimalPlaces : Z) : string :=
  let scale := 10 ^ decimalPlaces in
  let n := Qfloor (Qabs value * inject_Z scale + (1 # 2))%Q in
  (if Qlt_le_dec value 0 then "-" else EmptyString)
  +:+ pretty (n / scale)
  +:+ (if 0 <? decimalPlaces
       then "." +:+ pad_zeros (Z.to_nat decimalPlaces) (pretty (n mod scale))
       else EmptyString).

Definition panel64x32 : Build :=
  {| MATRIX_WIDTH := 64; MATRIX_HEIGHT := 32;
     String_of_float := String_of_float_decimal |}.


(** ** Sample inputs *)

(** A quote as the server sends it for one symbol. *)
Definition quoteAAPL : Stocks.HttpResponse :=
  {| Stocks.httpCode := 200;
     Stocks.payload :=
       Some {| Stocks.j_symbol := "AAPL";
               Stocks.j_timestamp := Some 1715100000;
               Stocks.j_open := Some (18250 # 100);
               Stocks.j_high := Some (18400 # 100);
               Stocks.j_low := Some (18100 # 100);
               Stocks.j_close := Some (18325 # 100);
               Stocks.j_volume := Some (45000000 # 1);
               Stocks.j_points :=
                 [ {| Stocks.j_dt := Some 1715100000;
                      Stocks.j_val := Some (18250 # 100) |} ] |} |}.

(** A history below zero throughout. *)
Definition negative_history : Stocks.StockData :=
  {| Stocks.symbol := "CL"; Stocks.timestamp := seconds 1587427200;
     Stocks.open := -2; Stocks.high := -1; Stocks.low := -3;
     Stocks.close := -1; Stocks.volume := 1000;
     Stocks.points :=
       [ {| Stocks.dt := seconds 1587427200; Stocks.val := -3 |};
         {| Stocks.dt := seconds 1587430800; Stocks.val := -1 |} ] |}.

Definition redmond : Weather.DeviceConfig :=
  {| Weather.GetLocation := "98052"; Weather.GetCountryCode := "US";
     Weather.IsLocationZip := true; Weather.GetOpenWeatherAPIKey := "key";
     Weather.UseCelsius := false |}.

Definition new_york : Weather.DeviceConfig :=
  {| Weather.GetLocation := "10001"; Weather.GetCountryCode := "US";
     Weather.IsLocationZip := true; Weather.GetOpenWeatherAPIKey := "key";
     Weather.UseCelsius := false |}.

(** Clear sky at 295.37 K. *)
Definition clear_sky : Weather.WeatherResponse :=
  {| Weather.w_code := 200;
     Weather.main_temp := Some (29537 # 100);
     Weather.main_temp_max := Some (29700 # 100);
     Weather.main_temp_min := Some (28900 # 100);
     Weather.weather_icon := "01d";
     Weather.name := Some "Redmond"%string |}.

(** Status 401 with the error body of the service, which has none of the
    members read. *)
Definition unauthorized : Weather.WeatherResponse :=
  {| Weather.w_code := 401;
     Weather.main_temp := None; Weather.main_temp_max := None;
     Weather.main_temp_min := None;
     Weather.weather_icon := EmptyString; Weather.name := None |}.

(** Mist: the icon of the service is 50d. *)
Definition mist : Weather.WeatherResponse :=
  {| Weather.w_code := 200;
     Weather.main_temp := Some (28315 # 100);
     Weather.main_temp_max := Some (28400 # 100);
     Weather.main_temp_min := Some (28200 # 100);
     Weather.weather_icon := "50d";
     Weather.name := Some "Redmond"%string |}.

Definition network : Weather.Net :=
  {| Weather.geo := {| Weather.geo_code := 200; Weather.geo_lat := "47.67";
                       Weather.geo_lon := "-122.12" |};
     Weather.today := clear_sky;
     Weather.forecast :=
       {| Weather.f_code := 200;
          Weather.list_entries :=
            [ {| Weather.dt_txt := "2024-05-08 12:00:00";
                 Weather.entry_temp_max := Some (29000 # 100);
                 Weather.entry_temp_min := Some (28500 # 100);
                 Weather.entry_icon := "10d" |} ];
          Weather.dateStr := "2024-05-08" |} |}.

Definition misty_network : Weather.Net :=
  {| Weather.geo := Weather.geo network; Weather.today := mist;
     Weather.forecast := Weather.forecast network |}.

(** Sample turns of the task: a first check that succeeds, then one that
    fails. *)
Definition first_turn : Subscribers.Turn :=
  {| Subscribers.configChannelGuid := "9558daa1-eae8-482f-8066-17fa787bc0e4";
     Subscribers.turn_now := 1000; Subscribers.turn_now' := 1005;
     Subscribers.answer :=
       Some {| Subscribers.subscribers_count := "123456";
               Subscribers.stats_views := "7890123" |} |}.

Definition failed_turn : Subscribers.Turn :=
  {| Subscribers.configChannelGuid := "9558daa1-eae8-482f-8066-17fa787bc0e4";
     Subscribers.turn_now := 70000; Subscribers.turn_now' := 70005;
     Subscribers.answer := None |}.

Definition idle_turn : Subscribers.Turn :=
  {| Subscribers.configChannelGuid := "9558daa1-eae8-482f-8066-17fa787bc0e4";
     Subscribers.turn_now := 6000; Subscribers.turn_now' := 6005;
     Subscribers.answer := None |}.

(** A triangle wave in place of FastLED's tables, to run the clock on. *)
Definition triangle8 (a : Z) : Z := Z.abs (2 * (a mod 256) - 255).

(** * Properties *)

(** ** Arithmetic of the [float] model *)

Lemma std_min_le_r (a b : Q) : (std_min a b <= b)%Q.
Proof. unfold std_min. destruct (Qlt_le_dec b a); lra. Qed.

Lemma std_min_le_l (a b : Q) : (std_min a b <= a)%Q.
Proof. unfold std_min. destruct (Qlt_le_dec b a); lra. Qed.

Lemma std_min_glb (a b c : Q) : (c <= a)%Q -> (c <= b)%Q -> (c <= std_min a b)%Q.
Proof. unfold std_min. destruct (Qlt_le_dec b a); lra. Qed.

Lemma std_min_mono_l (a a' b : Q) :
  (a <= a')%Q -> (std_min a b <= std_min a' b)%Q.
Proof.
  intros Ha. apply std_min_glb.
  - pose proof (std_min_le_l a b). lra.
  - apply std_min_le_r.
Qed.

Lemma std_max_ge_l (a b : Q) : (a <= std_max a b)%Q.
Proof. unfold std_max. destruct (Qlt_le_dec a b); lra. Qed.

Lemma std_max_ge_r (a b : Q) : (b <= std_max a b)%Q.
Proof. unfold std_max. destruct (Qlt_le_dec a b); lra. Qed.

Lemma float_to_int_inject (z : Z) : float_to_int (inject_Z z) = z.
Proof.
  unfold float_to_int.
  destruct (Qlt_le_dec (inject_Z z) 0); [apply Qceiling_Z | apply Qfloor_Z].
Qed.

Lemma float_to_int_le (x y : Q) :
  (x <= y)%Q -> float_to_int x <= float_to_int y.
Proof.
  intros Hxy. unfold float_to_int.
  destruct (Qlt_le_dec x 0) as [Hx|Hx], (Qlt_le_dec y 0) as [Hy|Hy].
  - now apply Qceiling_resp_le.
  - transitivity 0.
    + change 0 with (Qceiling 0). apply Qceiling_resp_le. lra.
    + change 0 with (Qfloor 0). now apply Qfloor_resp_le.
  - lra.
  - now apply Qfloor_resp_le.
Qed.

Lemma float_to_int_comp (x y : Q) : x == y -> float_to_int x = float_to_int y.
Proof.
  intros Hxy. apply Z.le_antisymm; apply float_to_int_le; lra.
Qed.

Lemma duration_float_le (d1 d2 : Z) :
  d1 <= d2 -> (duration_float d1 <= duration_float d2)%Q.
Proof.
  intros Hd. unfold duration_float.
  rewrite Zle_Qle in Hd.
  assert (0 < inject_Z ticks_per_second)%Q by reflexivity.
  apply Qle_shift_div_l; [assumption|].
  unfold Qdiv. rewrite <- Qmult_assoc, (Qmult_comm (/ _)), Qmult_inv_r, Qmult_1_r;
    [assumption | lra].
Qed.

Lemma duration_float_nonneg (d : Z) : 0 <= d -> (0 <= duration_float d)%Q.
Proof.
  intros Hd. pose proof (duration_float_le 0 d Hd) as Hle.
  assert (duration_float 0 == 0) as H0 by reflexivity.
  lra.
Qed.

(** ** The animated text *)

Section AnimatedTextFacts.
Import Stocks.

Lemma progress_le_1 (now : Z) (a : AnimatedText) : (progress now a <= 1)%Q.
Proof. apply std_min_le_r. Qed.

Lemma elapsedTime_le (t1 t2 : Z) (a : AnimatedText) :
  t1 <= t2 -> (elapsedTime t1 a <= elapsedTime t2 a)%Q.
Proof. intros Ht. apply duration_float_le. lia. Qed.

Lemma Qdiv_le_mono (x y d : Q) : (0 < d)%Q -> (x <= y)%Q -> (x / d <= y / d)%Q.
Proof.
  intros Hd Hxy. apply Qle_shift_div_l; [assumption|].
  unfold Qdiv. rewrite <- Qmult_assoc, (Qmult_comm (/ d)), Qmult_inv_r, Qmult_1_r;
    [assumption | lra].
Qed.

Lemma progress_mono (t1 t2 : Z) (a : AnimatedText) :
  (0 < animationTime a)%Q -> t1 <= t2 -> (progress t1 a <= progress t2 a)%Q.
Proof.
  intros Ha Ht. apply std_min_mono_l, Qdiv_le_mono; [assumption|].
  now apply elapsedTime_le.
Qed.

Lemma progress_nonneg (now : Z) (a : AnimatedText) :
  (0 < animationTime a)%Q -> startTime a <= now -> (0 <= progress now a)%Q.
Proof.
  intros Ha Ht. apply std_min_glb; [|lra].
  apply Qle_shift_div_l; [assumption|].
  rewrite Qmult_0_l. apply duration_float_nonneg. lia.
Qed.

Lemma progress_settled (now : Z) (a : AnimatedText) :
  (0 < animationTime a)%Q -> (animationTime a <= elapsedTime now a)%Q ->
  progress now a == 1.
Proof.
  intros Ha He. apply Qle_antisym; [apply progress_le_1|].
  apply std_min_glb; [|lra].
  apply Qle_shift_div_l; [assumption|]. lra.
Qed.

Lemma lerp_comp (from to : Z) (p q : Q) : p == q -> lerp from to p = lerp from to q.
Proof. intros Hpq. apply float_to_int_comp. now rewrite Hpq. Qed.

Lemma lerp_1 (from to : Z) : lerp from to 1 = to.
Proof.
  unfold lerp. rewrite <- (float_to_int_inject to) at 2.
  apply float_to_int_comp. rewrite Qmult_1_r, <- inject_Z_plus.
  f_equiv. lia.
Qed.

Lemma lerp_up (from to : Z) (p q : Q) :
  from <= to -> (p <= q)%Q -> lerp from to p <= lerp from to q.
Proof.
  intros Hft Hpq. apply float_to_int_le.
  assert (0 <= inject_Z (to - from))%Q
    by (change 0%Q with (inject_Z 0); rewrite <- Zle_Qle; lia).
  nra.
Qed.

Lemma lerp_down (from to : Z) (p q : Q) :
  to <= from -> (p <= q)%Q -> lerp from to q <= lerp from to p.
Proof.
  intros Hft Hpq. apply float_to_int_le.
  assert (inject_Z (to - from) <= 0)%Q by (change 0%Q with (inject_Z 0); rewrite <- Zle_Qle; lia).
  nra.
Qed.

(** Sampling changes the two current coordinates only, so a sample taken
    after other samples is the sample of the element as it was built. *)
Lemma UpdatePos_UpdatePos (t1 t2 : Z) (a : AnimatedText) :
  UpdatePos t2 (UpdatePos t1 a) = UpdatePos t2 a.
Proof. reflexivity. Qed.

(** C3.  Between retargets the start, the end, the start time and the
    duration of an element are fixed and [UpdatePos] is the only thing that
    runs on it.  For a positive duration, a later sample is never behind an
    earlier one on the way from start to end, in each coordinate, and every
    sample at a time [now >= startTime + duration], the duration counted in
    ticks of the clock, is exactly the end position. *)
Theorem UpdatePos_monotone_and_settles
    (a : AnimatedText) (t1 t2 now : Z) :
  (0 < animationTime a)%Q ->
  t1 <= t2 ->
  (inject_Z (startTime a) + animationTime a * inject_Z ticks_per_second
   <= inject_Z now)%Q ->
  let a1 := UpdatePos t1 a in
  let a2 := UpdatePos t2 a1 in
  (startX a <= endX a -> currentX a1 <= currentX a2) /\
  (endX a <= startX a -> currentX a2 <= currentX a1) /\
  (startY a <= endY a -> currentY a1 <= currentY a2) /\
  (endY a <= startY a -> currentY a2 <= currentY a1) /\
  currentX (UpdatePos now a2) = endX a /\
  currentY (UpdatePos now a2) = endY a.
Proof.
  intros Ha Ht Hnow a1 a2. subst a1 a2. rewrite !UpdatePos_UpdatePos.
  assert (animationTime a <= elapsedTime now a)%Q as He.
  { unfold elapsedTime, duration_float.
    apply Qle_shift_div_l; [reflexivity|].
    replace (now - startTime a) with (now + - startTime a) by lia.
    rewrite inject_Z_plus, inject_Z_opp. lra. }
  pose proof (progress_mono t1 t2 a Ha Ht) as Hp.
  pose proof (progress_settled now a Ha He) as H1.
  cbn [UpdatePos currentX currentY].
  repeat split; intros.
  - now apply lerp_up.
  - now apply lerp_down.
  - now apply lerp_up.
  - now apply lerp_down.
  - rewrite (lerp_comp _ _ _ _ H1). apply lerp_1.
  - rewrite (lerp_comp _ _ _ _ H1). apply lerp_1.
Qed.

Lemma UpdatePos_monotone_and_settles_witness :
  let start := seconds 1715100000 in
  let a := AnimatedText_new start "STOCK" White 1 64 0 0 0 in
  let a1 := UpdatePos (start + 250000000) a in
  let a2 := UpdatePos (start + 500000000) a1 in
  (currentX a1 = 48 /\ currentX a2 = 32) /\
  currentX a2 <= currentX a1 /\
  currentY a1 <= currentY a2 /\
  currentX (UpdatePos (start + seconds 1) a2) = 0 /\
  currentY (UpdatePos (start + seconds 1) a2) = 0.
Proof.
  intros start a a1 a2. split; [split; vm_compute; reflexivity|].
  destruct (UpdatePos_monotone_and_settles a (start + 250000000)
              (start + 500000000) (start + seconds 1))
    as (_ & Hx & Hy & _ & Hex & Hey).
  - reflexivity.
  - lia.
  - vm_compute. discriminate.
  - split; [apply Hx; vm_compute; discriminate|].
    split; [apply Hy; vm_compute; discriminate|].
    split; [exact Hex | exact Hey].
Defined.

(** The claim C4 fails one second before the start time: the progress of a
    one-second animation is then minus one. *)
Lemma progress_negative_before_startTime :
  let a := AnimatedText_new (seconds 10) "STOCK" White 1 64 0 0 0 in
  progress (seconds 9) a == -1 /\ ~ (0 <= progress (seconds 9) a)%Q.
Proof. split; [reflexivity | vm_compute; intros H; now apply H]. Qed.

(** C4, amended.  The progress of an element with a positive duration is
    never greater than 1 at any sample time, and it is not negative at any
    sample time from the start time on.  There is no lower clamp: at a
    sample time before the start time the progress is negative. *)
Theorem progress_bounds (a : AnimatedText) (now : Z) :
  (0 < animationTime a)%Q ->
  (progress now a <= 1)%Q /\
  (startTime a <= now -> (0 <= progress now a)%Q) /\
  (now < startTime a -> (progress now a < 0)%Q).
Proof.
  intros Ha. split; [apply progress_le_1|]. split.
  - now apply progress_nonneg.
  - intros Hlt.
    assert (elapsedTime now a / animationTime a < 0)%Q as Hneg.
    { apply Qlt_shift_div_r; [assumption|]. rewrite Qmult_0_l.
      unfold elapsedTime, duration_float.
      apply Qlt_shift_div_r; [reflexivity|]. rewrite Qmult_0_l.
      change 0%Q with (inject_Z 0). rewrite <- Zlt_Qlt. lia. }
    pose proof (std_min_le_l (elapsedTime now a / animationTime a) 1).
    unfold progress. lra.
Qed.

Lemma progress_bounds_witness :
  let a := AnimatedText_new (seconds 10) "STOCK" White 1 64 0 0 0 in
  ((progress (seconds 11) a <= 1)%Q /\ (0 <= progress (seconds 11) a)%Q) /\
  (progress (seconds 9) a < 0)%Q.
Proof.
  intros a.
  destruct (progress_bounds a (seconds 11)) as (Hle & Hge & _); [reflexivity|].
  destruct (progress_bounds a (seconds 9)) as (_ & _ & Hneg); [reflexivity|].
  split; [split; [exact Hle | apply Hge; vm_compute; discriminate]|].
  apply Hneg. reflexivity.
Defined.

End AnimatedTextFacts.

(** ** Retargeting, publishing and the history graph of the stocks effect *)

Section StocksFacts.
Import Stocks.

(** The claim C5 fails on the first quote to arrive.  The placeholder text
    is sampled at x = 32, half way in; a task stores a quote; the frame at
    0.6 s retargets.  The claim puts the new start at the position sampled
    at that moment, x = 25; the new start is x = -64. *)
Lemma retarget_starts_offscreen_not_at_sample :
  let w1 := run (H := panel64x32) "AAPL" (boot (H := panel64x32) 0 0)
              [Frame 500000000 true; TaskStep 0 quoteAAPL; TaskStep 0 quoteAAPL] in
  let w2 := step (H := panel64x32) "AAPL" w1 (Frame 600000000 true) in
  currentX (textSymbol (fx w1)) = 32 /\
  progress 600000000 (textSymbol (fx w1)) == 3 # 5 /\
  currentX (UpdatePos 600000000 (textSymbol (fx w1))) = 25 /\
  startX (textSymbol (fx w2)) = -64 /\
  startX (textSymbol (fx w2))
    <> currentX (UpdatePos 600000000 (textSymbol (fx w1))).
Proof. vm_compute. repeat split; discriminate. Qed.

(** C5, amended.  Every retarget discards the previous interpolation and
    starts the new one, at the time of the call, from a fixed position left
    of the panel: x = -MATRIX_WIDTH for symbol, price and change and
    x = -2 * MATRIX_WIDTH for volume, on rows 8, 8, 15 and 22.  The position
    the element was last sampled at plays no part. *)
Theorem StartQuoteDisplay_starts_offscreen `{Build}
    (now : Z) (data : StockData) (s : PatternStocks) :
  let s' := StartQuoteDisplay now data s in
  let starts (a : AnimatedText) :=
    (startX a, startY a, currentX a, currentY a, startTime a) in
  starts (textSymbol s') = (- MATRIX_WIDTH, 8, - MATRIX_WIDTH, 8, now) /\
  starts (textPrice s') = (- MATRIX_WIDTH, 8, - MATRIX_WIDTH, 8, now) /\
  starts (textChange s') = (- MATRIX_WIDTH, 15, - MATRIX_WIDTH, 15, now) /\
  starts (textVolume s') = (- MATRIX_WIDTH * 2, 22, - MATRIX_WIDTH * 2, 22, now).
Proof. repeat split. Qed.

(** Every retarget gives the four texts positive durations, so the
    hypothesis on the duration in C3 and C4 is met. *)
Lemma StartQuoteDisplay_positive_durations `{Build} now data s :
  positive_durations (StartQuoteDisplay now data s).
Proof. repeat split. Qed.

(** *** Publishing *)

(** The claim C6 fails on an answer that has a symbol and nothing else: it
    is stored, with every other field zero. *)
Lemma quote_without_fields_is_published :
  let r := {| httpCode := 200;
              payload := Some {| j_symbol := "AAPL"; j_timestamp := None;
                                 j_open := None; j_high := None; j_low := None;
                                 j_close := None; j_volume := None;
                                 j_points := [] |} |} in
  storeQuote (GetQuote r) ∅ !! "AAPL"
  = Some {| symbol := "AAPL"; timestamp := 0; open := 0; high := 0; low := 0;
            close := 0; volume := 0; points := [] |}.
Proof. vm_compute. reflexivity. Qed.

Lemma isEmpty_true (s : string) : isEmpty s = true <-> s = EmptyString.
Proof. destruct s; split; intros; try discriminate; reflexivity. Qed.


Lemma storeQuote_failure (r : HttpResponse) (m : gmap string StockData) :
  httpCode r <> HTTP_CODE_OK \/ payload r = None ->
  storeQuote (GetQuote r) m = m.
Proof.
  intros Hfail. unfold GetQuote.
  destruct (Z.eqb_spec (httpCode r) HTTP_CODE_OK) as [Hok|Hne].
  - destruct Hfail as [Hne|Hnone]; [contradiction|]. now rewrite Hnone.
  - reflexivity.
Qed.

(** C6, amended.  An answer is published exactly when its HTTP code is 200,
    its payload deserializes and the symbol read from it is not empty; in
    every other case the store is left as it was.  The symbol is the one
    field that is looked at: the published snapshot carries zero for each of
    timestamp, open, high, low, close and volume that the document lacks. *)
Theorem storeQuote_checks_symbol_only
    (r : HttpResponse) (m : gmap string StockData) :
  let m' := storeQuote (GetQuote r) m in
  (httpCode r <> HTTP_CODE_OK \/ payload r = None -> m' = m) /\
  (forall doc : JsonQuote,
     httpCode r = HTTP_CODE_OK -> payload r = Some doc ->
     (j_symbol doc = EmptyString -> m' = m) /\
     (j_symbol doc <> EmptyString ->
      m' = <[j_symbol doc := parseQuote doc]> m /\
      timestamp (parseQuote doc) = seconds (default 0 (j_timestamp doc)) /\
      open (parseQuote doc) = default 0%Q (j_open doc) /\
      high (parseQuote doc) = default 0%Q (j_high doc) /\
      low (parseQuote doc) = default 0%Q (j_low doc) /\
      close (parseQuote doc) = default 0%Q (j_close doc) /\
      volume (parseQuote doc) = default 0%Q (j_volume doc))).
Proof.
  intros m'. split; [apply storeQuote_failure|].
  intros doc Hcode Hdoc. subst m'. unfold GetQuote, storeQuote.
  rewrite Hcode, Hdoc. cbn [Z.eqb HTTP_CODE_OK Pos.eqb parseQuote symbol].
  split.
  - intros ->. reflexivity.
  - intros Hsym. destruct (j_symbol doc) eqn:E; [contradiction|].
    repeat split.
Qed.

Lemma storeQuote_checks_symbol_only_witness :
  let doc := {| j_symbol := "AAPL"; j_timestamp := None;
                j_open := None; j_high := None; j_low := None;
                j_close := Some (18325 # 100); j_volume := None;
                j_points := [] |} in
  let r := {| httpCode := 200; payload := Some doc |} in
  storeQuote (GetQuote r) ∅ = <["AAPL" := parseQuote doc]> ∅ /\
  open (parseQuote doc) = 0%Q /\
  storeQuote (GetQuote {| httpCode := 404; payload := None |}) ∅ = ∅.
Proof.
  intros doc r.
  destruct (storeQuote_checks_symbol_only r ∅) as [_ Hpub].
  destruct (Hpub doc eq_refl eq_refl) as [_ Hsym].
  destruct Hsym as (Hm & _ & Hopen & _); [discriminate|].
  destruct (storeQuote_checks_symbol_only {| httpCode := 404; payload := None |} ∅)
    as [Hfail _].
  split; [exact Hm|]. split; [exact Hopen|].
  apply Hfail. left. discriminate.
Defined.

(** *** The history graph *)

Lemma extrema_step_fold (pts : list StockPoint) (mx mn : Q) :
  let r := fold_left extrema_step pts (mx, mn) in
  ((mx <= fst r)%Q /\ (snd r <= mn)%Q) /\
  (forall p, In p pts -> (val p <= fst r)%Q /\ (snd r <= val p)%Q) /\
  (fst r = mx \/ exists p, In p pts /\ fst r = val p) /\
  (snd r = mn \/ exists p, In p pts /\ snd r = val p).
Proof.
  revert mx mn. induction pts as [|q pts IH]; intros mx mn; cbn [fold_left].
  - cbn [fst snd]. split; [split; lra|]. split; [intros p []|]. split; now left.
  - specialize (IH (fst (extrema_step (mx, mn) q)) (snd (extrema_step (mx, mn) q))).
    cbv zeta in IH. rewrite <- surjective_pairing in IH.
    destruct (fold_left extrema_step pts (extrema_step (mx, mn) q)) as [rx rn].
    cbn [extrema_step fst snd] in *.
    destruct IH as ((IH1 & IH2) & IH3 & IH4 & IH5).
    pose proof (std_max_ge_l mx (val q)). pose proof (std_max_ge_r mx (val q)).
    pose proof (std_min_le_l mn (val q)). pose proof (std_min_le_r mn (val q)).
    split; [split; lra|]. split; [|split].
    + intros p [<-|Hin]; [split; lra | apply (IH3 p Hin)].
    + destruct IH4 as [->|(p & Hin & ->)].
      * unfold std_max. destruct (Qlt_le_dec mx (val q)); [right|left];
          eauto using in_eq.
      * right. exists p. split; [now right | reflexivity].
    + destruct IH5 as [->|(p & Hin & ->)].
      * unfold std_min. destruct (Qlt_le_dec (val q) mn); [right|left];
          eauto using in_eq.
      * right. exists p. split; [now right | reflexivity].
Qed.

(** X10.  What the first loop computes: [min] is the least value drawn, as long
    as the values do not exceed [FLT_MAX]; [max] is the greatest value
    drawn or zero, whichever is larger. *)
Lemma extrema_spec (pts : list StockPoint) :
  pts <> [] ->
  (forall p, In p pts -> (val p <= FLT_MAX)%Q) ->
  let '(max, min) := extrema pts in
  (forall p, In p pts -> (min <= val p <= max)%Q) /\
  (exists p, In p pts /\ min == val p) /\
  (0 <= max)%Q /\
  (max = 0%Q \/ exists p, In p pts /\ max = val p).
Proof.
  intros Hne Hfin. unfold extrema.
  pose proof (extrema_step_fold pts 0 FLT_MAX) as H. cbv zeta in H.
  destruct (fold_left extrema_step pts (0%Q, FLT_MAX)) as [mx mn].
  cbn [fst snd] in H. destruct H as ((H1 & H2) & H3 & H4 & H5).
  repeat split; try (apply H3; assumption); try assumption.
  destruct H5 as [->|(p & Hin & ->)].
  - destruct pts as [|p pts]; [contradiction|]. exists p. split; [apply in_eq|].
    pose proof (H3 p (in_eq _ _)). pose proof (Hfin p (in_eq _ _)). lra.
  - exists p. split; [assumption | reflexivity].
Qed.

(** C9.  On a history whose values are all negative the graph is drawn with
    a maximum of zero, which is no value of the history: the greatest value
    drawn is -1.  The minimum, -3, is the true one. *)
Theorem graph_maximum_of_negative_history :
  let cs := negative_history in
  let pts := graph_points (H := panel64x32) cs in
  pts = points cs /\
  graph (H := panel64x32) cs = [DrawLine 63 29 63 26 Red] /\
  extrema pts = (0%Q, (-3)%Q) /\
  (forall p, In p pts -> (val p <= -1)%Q) /\
  (exists p, In p pts /\ val p = (-1)%Q).
Proof.
  intros cs pts.
  assert (pts = points cs) as Hpts by (vm_compute; reflexivity).
  split; [exact Hpts|]. split; [vm_compute; reflexivity|].
  split; [vm_compute; reflexivity|]. rewrite Hpts. split.
  - intros p [<-|[<-|[]]]; vm_compute; discriminate.
  - eexists. split; [right; left; reflexivity | reflexivity].
Qed.

End StocksFacts.

(** ** The rotation index and the durations in every reachable world *)

Section StocksWellFormed.
Import Stocks.
Context `{Build} (cszStockList : string).

Lemma entries_length (m : gmap string StockData) :
  length (entries m) = size m.
Proof.
  unfold entries. rewrite merge_sort_Permutation. apply length_map_to_list.
Qed.

Lemma advance_in_range (m : gmap string StockData) (i : Z) :
  0 <= i < Z.of_nat (size m) -> is_Some (advance m i).
Proof.
  intros Hi. unfold advance.
  destruct (Z.ltb_spec i 0); [lia|].
  destruct (entries m !! Z.to_nat i) eqn:E; [cbn; eauto|].
  apply lookup_ge_None in E. rewrite entries_length in E. lia.
Qed.

Lemma storeQuote_size (d : StockData) (m : gmap string StockData) :
  (size m <= size (storeQuote d m))%nat.
Proof.
  unfold storeQuote. destruct (negb _); [|lia].
  rewrite map_size_insert. destruct (m !! symbol d); cbn; lia.
Qed.

Lemma stocks_wellformed_boot (t0 t1 : Z) : wellformed (boot t0 t1).
Proof. repeat split; cbn; try reflexivity; try lia; now left. Qed.

Lemma stocks_wellformed_run_task (i : nat) (r : HttpResponse) (w : World) :
  wellformed w -> wellformed (run_task cszStockList i r w).
Proof.
  intros Hw. unfold run_task.
  destruct (tasks w !! i) as [t|]; [|exact Hw].
  destruct Hw as (Hd & Hi0 & Hi).
  destruct t as [|[|sym rest]|]; cbn [task_step];
    (split; [exact Hd|]; split; [exact Hi0|]); try exact Hi.
  cbn [fx iCurrentStock stockData set_stockData].
  destruct Hi as [Hi|Hi]; [now left | right].
  pose proof (storeQuote_size (GetQuote r) (stockData (fx w))). lia.
Qed.

Lemma stocks_wellformed_Draw (now : Z) (wifi : bool) (w : World) :
  wellformed w -> wellformed (Draw now wifi w).
Proof.
  intros Hw. unfold Draw. cbv zeta.
  set (w1 := if wifi && _ then _ else _).
  assert (wellformed w1) as Hw1.
  { subst w1. destruct (wifi && _); [|exact Hw].
    unfold BackgroundFetchQuotes, with_fx. cbn [fx isUpdating set_nextFetch].
    destruct (negb _); exact Hw. }
  set (w2 := if rotate_due now w1 then _ else _).
  assert (wellformed w2) as (Hd2 & Hi2 & Hi2').
  { subst w2. destruct (rotate_due now w1); [|exact Hw1].
    destruct Hw1 as (Hd1 & Hi1 & Hi1').
    unfold rotate. cbn [stockData set_lastUpdate].
    destruct (Nat.eqb_spec (size (stockData (fx w1))) 0) as [E|E]; cbn [negb].
    - split; [exact Hd1|]. split; [exact Hi1 | exact Hi1'].
    - cbn [iCurrentStock set_lastUpdate set_iCurrentStock stockData].
      assert (0 < Z.of_nat (size (stockData (fx w1)))) as Hpos by lia.
      pose proof (Z.mod_pos_bound (iCurrentStock (fx w1) + 1) _ Hpos) as Hm.
      destruct (advance _ _);
        (split; [first [exact Hd1 | apply StartQuoteDisplay_positive_durations]|]);
        unfold wellformed, StartQuoteDisplay;
        cbn [fx iCurrentStock stockData set_texts set_iCurrentStock set_lastUpdate];
        (split; [|right]); lia. }
  split; [exact Hd2|]. split; [exact Hi2 | exact Hi2'].
Qed.

Lemma stocks_wellformed_run (w : World) (es : list Event) :
  wellformed w -> wellformed (run cszStockList w es).
Proof.
  revert w. induction es as [|e es IH]; intros w Hw; [exact Hw|].
  cbn [run fold_left]. apply IH. destruct e as [now wifi|i r]; cbn [step].
  - now apply stocks_wellformed_Draw.
  - now apply stocks_wellformed_run_task.
Qed.

(** X11.  In a reachable world the iterator of [UpdateQuoteDisplay] and of the
    rotation stays inside the map, and the four durations are positive. *)
Lemma stocks_reachable_wellformed (t0 t1 : Z) (es : list Event) :
  let w := run cszStockList (boot t0 t1) es in
  positive_durations (fx w) /\
  (size (stockData (fx w)) <> 0%nat ->
   is_Some (advance (stockData (fx w)) (iCurrentStock (fx w))) /\
   is_Some (advance (stockData (fx w))
              ((iCurrentStock (fx w) + 1) mod Z.of_nat (size (stockData (fx w)))))).
Proof.
  intros w.
  destruct (stocks_wellformed_run (boot t0 t1) es (stocks_wellformed_boot t0 t1))
    as (Hd & Hi0 & Hi).
  split; [exact Hd|]. intros Hne. split; apply advance_in_range.
  - fold w in Hi0, Hi. lia.
  - apply Z.mod_pos_bound. lia.
Qed.

End StocksWellFormed.

(** ** At most one task in flight *)

(** Counting the entries of a task table that satisfy a test, when the
    test holds for at most one key. *)
Lemma count_unique {A} (f : A -> bool) (m : gmap nat A) :
  (forall h1 h2 t1 t2, m !! h1 = Some t1 -> m !! h2 = Some t2 ->
     f t1 = true -> f t2 = true -> h1 = h2) ->
  (length (filter (fun kt => f kt.2) (map_to_list m)) <= 1)%nat.
Proof.
  intros Huniq.
  assert (NoDup (filter (fun kt : nat * A => f kt.2) (map_to_list m)).*1) as Hnd.
  { eapply sublist_NoDup; [apply (NoDup_fst_map_to_list m)|].
    apply fmap_sublist, sublist_filter. }
  assert (forall k t, (k, t) ∈ filter (fun kt : nat * A => f kt.2) (map_to_list m) ->
                      m !! k = Some t /\ f t = true) as Hin.
  { intros k t Hkt. apply list_elem_of_filter in Hkt as [Hf Hkt]. cbn in Hf.
    split; [now apply elem_of_map_to_list | now apply Is_true_true]. }
  destruct (filter _ _) as [|[k1 t1] [|[k2 t2] l]]; cbn [length]; try lia.
  exfalso.
  assert (m !! k1 = Some t1 /\ f t1 = true) as [H1 F1]
    by (apply Hin; constructor).
  assert (m !! k2 = Some t2 /\ f t2 = true) as [H2 F2]
    by (apply Hin; do 2 constructor).
  pose proof (Huniq k1 k2 t1 t2 H1 H2 F1 F2) as ->.
  cbn in Hnd. apply NoDup_cons in Hnd as [Hnotin _]. apply Hnotin. constructor.
Qed.

Lemma count_nonzero {A} (f : A -> bool) (m : gmap nat A) :
  length (filter (fun kt => f kt.2) (map_to_list m)) <> 0%nat ->
  exists h t, m !! h = Some t /\ f t = true.
Proof.
  intros Hlen.
  destruct (filter _ _) as [|[k t] l] eqn:E; [contradiction|].
  assert ((k, t) ∈ filter (fun kt : nat * A => f kt.2) (map_to_list m)) as Hkt
    by (rewrite E; constructor).
  apply list_elem_of_filter in Hkt as [Hf Hkt]. cbn in Hf.
  exists k, t. split; [now apply elem_of_map_to_list | now apply Is_true_true].
Qed.

Section StocksTasks.
Import Stocks.
Context `{Build} (cszStockList : string).

Lemma stocks_rotate_frame (now : Z) (w : World) :
  tasks (rotate now w) = tasks w /\
  isUpdating (fx (rotate now w)) = isUpdating (fx w) /\
  nextFetch (fx (rotate now w)) = nextFetch (fx w).
Proof.
  unfold rotate. cbn [tasks fx].
  destruct (negb _); [|repeat split].
  destruct (advance _ _); repeat split.
Qed.

Lemma stocks_UpdateQuoteDisplay_frame (now : Z) (w : World) :
  tasks (UpdateQuoteDisplay now w) = tasks w /\
  isUpdating (fx (UpdateQuoteDisplay now w)) = isUpdating (fx w) /\
  nextFetch (fx (UpdateQuoteDisplay now w)) = nextFetch (fx w).
Proof. repeat split. Qed.

(** What a frame does to the task table and to the two refresh fields. *)
Lemma stocks_Draw_refresh (now : Z) (wifi : bool) (w : World) :
  let w' := Draw now wifi w in
  let due := wifi && fetch_due now (fx w) in
  tasks w' = (if due && negb (isUpdating (fx w))
              then <[fresh (dom (tasks w)) := Created]> (tasks w)
              else tasks w) /\
  isUpdating (fx w') = (isUpdating (fx w) || due) /\
  nextFetch (fx w') = (if due then now + STOCKS_FETCH_INTERVAL_SECONDS
                       else nextFetch (fx w)).
Proof.
  unfold Draw. cbv zeta. cbn [fx].
  match goal with |- context [UpdateQuoteDisplay now ?w2] =>
    destruct (stocks_UpdateQuoteDisplay_frame now w2) as (-> & -> & ->) end.
  match goal with |- context [if rotate_due now ?w1 then _ else _] =>
    destruct (rotate_due now w1);
    [destruct (stocks_rotate_frame now w1) as (-> & -> & ->)|] end.
  all: destruct w as [s count ts scr]; cbn [fx tasks lastCount screen];
    destruct (wifi && fetch_due now s); cbn [andb orb];
    unfold BackgroundFetchQuotes, with_fx; cbn [fx isUpdating set_nextFetch];
    destruct (isUpdating s) eqn:E; cbn; rewrite ?E; repeat split.
Qed.

Lemma stocks_single_flight_boot (t0 t1 : Z) : single_flight_inv (boot t0 t1).
Proof. split; cbn; intros; simplify_map_eq. Qed.

Lemma stocks_single_flight_Draw (now : Z) (wifi : bool) (w : World) :
  single_flight_inv w -> single_flight_inv (Draw now wifi w).
Proof.
  intros [Hflag Huniq].
  destruct (stocks_Draw_refresh now wifi w) as (Ht & Hu & _).
  unfold single_flight_inv. rewrite Ht, Hu.
  destruct (wifi && fetch_due now (fx w)); cbn [andb orb negb].
  - destruct (isUpdating (fx w)) eqn:E; cbn [negb orb].
    + split; [reflexivity | exact Huniq].
    + split; [reflexivity|].
      assert (forall h t, tasks w !! h = Some t -> outstanding t = false) as Hnone.
      { intros h t Hh. destruct (outstanding t) eqn:Ho; [|reflexivity].
        specialize (Hflag h t Hh Ho). congruence. }
      intros h1 h2 t1 t2 H1 H2 O1 O2.
      apply lookup_insert_Some in H1 as [[<- <-]|[_ H1]];
        apply lookup_insert_Some in H2 as [[<- <-]|[_ H2]]; try reflexivity.
      * rewrite (Hnone _ _ H2) in O2. discriminate.
      * rewrite (Hnone _ _ H1) in O1. discriminate.
      * rewrite (Hnone _ _ H1) in O1. discriminate.
  - rewrite orb_false_r. split; assumption.
Qed.

Lemma stocks_single_flight_run_task (i : nat) (r : HttpResponse) (w : World) :
  single_flight_inv w -> single_flight_inv (run_task cszStockList i r w).
Proof.
  intros [Hflag Huniq]. unfold run_task.
  destruct (tasks w !! i) as [t|] eqn:Hi; [|split; assumption].
  destruct t as [|[|sym rest]|]; cbn [task_step]; unfold single_flight_inv;
    cbn [fx tasks isUpdating set_isUpdating set_stockData].
  - split; [reflexivity|].
    intros h1 h2 t1 t2 H1 H2 O1 O2.
    apply lookup_insert_Some in H1 as [[<- <-]|[? H1]];
      apply lookup_insert_Some in H2 as [[<- <-]|[? H2]]; try reflexivity;
      eauto using Huniq.
  - split.
    + intros h t Hh Ho. exfalso.
      apply lookup_insert_Some in Hh as [[<- <-]|[Hne Hh]]; [discriminate|].
      apply Hne. eapply Huniq; eauto.
    + intros h1 h2 t1 t2 H1 H2 O1 O2.
      apply lookup_insert_Some in H1 as [[<- <-]|[? H1]]; [discriminate|].
      apply lookup_insert_Some in H2 as [[<- <-]|[? H2]]; [discriminate|].
      eapply Huniq; eauto.
  - split.
    + intros h t Hh Ho. eapply (Hflag i); eauto.
    + intros h1 h2 t1 t2 H1 H2 O1 O2.
      apply lookup_insert_Some in H1 as [[<- <-]|[? H1]];
        apply lookup_insert_Some in H2 as [[<- <-]|[? H2]]; try reflexivity.
      * symmetry. eapply Huniq; eauto.
      * eapply Huniq; eauto.
      * eapply Huniq; eauto.
  - split.
    + intros h t Hh Ho. apply lookup_delete_Some in Hh as [_ Hh]. eauto.
    + intros h1 h2 t1 t2 H1 H2 O1 O2.
      apply lookup_delete_Some in H1 as [_ H1].
      apply lookup_delete_Some in H2 as [_ H2]. eauto.
Qed.

Lemma stocks_single_flight_run (w : World) (es : list Event) :
  single_flight_inv w -> single_flight_inv (run cszStockList w es).
Proof.
  revert w. induction es as [|e es IH]; intros w Hw; [exact Hw|].
  cbn [run fold_left]. apply IH. destruct e as [now wifi|i r]; cbn [step].
  - now apply stocks_single_flight_Draw.
  - now apply stocks_single_flight_run_task.
Qed.

Lemma stocks_single_flight (w : World) (now : Z) (wifi : bool) :
  single_flight_inv w ->
  (in_flight w <= 1)%nat /\
  (in_flight w <> 0%nat -> tasks (Draw now wifi w) = tasks w).
Proof.
  intros [Hflag Huniq]. split.
  - apply count_unique, Huniq.
  - intros Hpos. apply count_nonzero in Hpos as (h & t & Hh & Ho).
    destruct (stocks_Draw_refresh now wifi w) as (-> & _).
    rewrite (Hflag h t Hh Ho). now rewrite andb_false_r.
Qed.

End StocksTasks.

(** ** The weather task and the icon numbers *)

Section WeatherFacts.
Import Weather.
Context `{Build}.

(** The three requests of a task leave the task fields alone. *)
Lemma updateCoordinates_frame cfg r s :
  let s' := (updateCoordinates cfg r s).2 in
  updateInProgress s' = updateInProgress s /\ weatherTask s' = weatherTask s /\
  latestUpdate s' = latestUpdate s /\
  iconToday s' = iconToday s /\ iconTomorrow s' = iconTomorrow s.
Proof.
  unfold updateCoordinates.
  destruct (negb _); [repeat split|]. destruct (_ <=? _); repeat split.
Qed.

Lemma getWeatherData_frame cfg r s :
  let s' := (getWeatherData cfg r s).2 in
  updateInProgress s' = updateInProgress s /\ weatherTask s' = weatherTask s /\
  latestUpdate s' = latestUpdate s /\
  (iconToday s' = iconToday s \/ iconToday s' = checked_icon (toInt (weather_icon r))) /\
  iconTomorrow s' = iconTomorrow s.
Proof.
  unfold getWeatherData. destruct (0 <? w_code r); cbn; repeat split; auto.
Qed.

Lemma getTomorrowTemps_frame cfg r s :
  let s' := (getTomorrowTemps cfg r s).2 in
  updateInProgress s' = updateInProgress s /\ weatherTask s' = weatherTask s /\
  latestUpdate s' = latestUpdate s /\
  iconToday s' = iconToday s /\
  (iconTomorrow s' = iconTomorrow s \/ iconTomorrow s' = -1 \/
   exists icon, iconTomorrow s' = checked_icon icon).
Proof.
  unfold getTomorrowTemps. destruct (0 <? f_code r); cbn; [|repeat split; auto].
  destruct (find _ _); cbn; repeat split; eauto.
Qed.

Lemma checked_icon_ok (icon : Z) : icon_ok (checked_icon icon).
Proof.
  unfold checked_icon, icon_ok.
  destruct (Z.ltb_spec icon 1); cbn [orb]; [now left|].
  destruct (Z.leb_spec (ARRAYSIZE pszWeatherIcons) icon); [now left | right; lia].
Qed.

Lemma draw_icon_in_bounds (x icon : Z) : icon_ok icon -> is_Some (draw_icon x icon).
Proof.
  intros [->|Hrange]; [cbn; eauto|].
  unfold draw_icon. destruct (0 <=? icon); [|eauto].
  destruct (pszWeatherIcons !! Z.to_nat icon) eqn:E; [eauto|].
  apply lookup_ge_None in E. unfold ARRAYSIZE in Hrange. lia.
Qed.

(** What a frame does to the task table and to the refresh fields. *)
Lemma weather_Draw_refresh now wifi timing cfg (w : World) :
  let w' := Draw now wifi timing cfg w in
  let go := spawns now wifi timing cfg w in
  tasks w' = (if go then <[fresh (dom (tasks w)) := Created]> (tasks w)
              else tasks w) /\
  updateInProgress (fx w') = (updateInProgress (fx w) || go) /\
  latestUpdate (fx w') = (if go then now else latestUpdate (fx w)) /\
  iconToday (fx w') = iconToday (fx w) /\
  iconTomorrow (fx w') = iconTomorrow (fx w).
Proof.
  unfold Draw, spawns, spawn. cbv zeta. cbn [fx tasks].
  destruct (wifi && refresh_due timing cfg now (fx w)); cbn [andb].
  - destruct (negb (updateInProgress (fx w)) && _) eqn:E; cbn [fx tasks].
    + apply andb_true_iff in E as [E _]. apply negb_true_iff in E. rewrite E.
      repeat split.
    + rewrite orb_false_r. repeat split.
  - rewrite orb_false_r. repeat split.
Qed.


(** The two parts of a request make up the call. *)
Lemma getWeatherData_in_two_parts cfg r s :
  getWeatherData cfg r s
  = if 0 <? w_code r
    then (true, getWeatherData_check (name r) (getWeatherData_store cfg r s))
    else (false, s).
Proof. unfold getWeatherData. destruct (0 <? w_code r); reflexivity. Qed.

Lemma getTomorrowTemps_in_two_parts cfg r s :
  getTomorrowTemps cfg r s
  = if 0 <? f_code r then
      (true,
       match tomorrow_entry r with
       | Some e => getTomorrowTemps_check (getTomorrowTemps_store cfg e s)
       | None => set_tomorrow (-1) (highTomorrow s) (loTomorrow s) s
       end)
    else (false, s).
Proof.
  unfold getTomorrowTemps, tomorrow_entry.
  destruct (0 <? f_code r); [|reflexivity]. now destruct (find _ _).
Qed.

Lemma weather_task_step_frame cfg net t s :
  let '(s', t') := task_step cfg net t s in
  (outstanding t' = true ->
   outstanding t = true /\ updateInProgress s' = updateInProgress s) /\
  (outstanding t' = false -> outstanding t = true \/ s' = s).
Proof.
  destruct t as [| |pszName|[|]| | | | |]; cbn [task_step].
  - destruct (updateCoordinates_frame cfg (geo net) s) as (-> & _).
    split; auto.
  - destruct (0 <? w_code (today net)); split; auto.
  - split; auto.
  - destruct (0 <? f_code (forecast net)); [|split; auto].
    destruct (tomorrow_entry (forecast net)); [split; auto|].
    destruct (getTomorrowTemps_frame cfg (forecast net) s) as (-> & _).
    split; auto.
  - split; auto.
  - split; auto.
  - split; auto.
  - split; auto.
  - cbn. split; [discriminate | auto].
  - cbn. split; [discriminate | auto].
Qed.

Lemma weather_single_flight_boot : single_flight_inv boot.
Proof. split; cbn; intros; simplify_map_eq. Qed.

Lemma weather_single_flight_Draw now wifi timing cfg (w : World) :
  single_flight_inv w -> single_flight_inv (Draw now wifi timing cfg w).
Proof.
  intros [Hflag Huniq].
  destruct (weather_Draw_refresh now wifi timing cfg w) as (Ht & Hu & _).
  unfold single_flight_inv. rewrite Ht, Hu.
  destruct (spawns now wifi timing cfg w) eqn:Hgo.
  - rewrite orb_true_r. split; [reflexivity|].
    assert (updateInProgress (fx w) = false) as Hidle.
    { unfold spawns in Hgo. apply andb_true_iff in Hgo as [_ Hgo].
      apply andb_true_iff in Hgo as [Hgo _]. now apply negb_true_iff in Hgo. }
    assert (forall h t, tasks w !! h = Some t -> outstanding t = false) as Hnone.
    { intros h t Hh. destruct (outstanding t) eqn:Ho; [|reflexivity].
      specialize (Hflag h t Hh Ho). congruence. }
    intros h1 h2 t1 t2 H1 H2 O1 O2.
    apply lookup_insert_Some in H1 as [[<- <-]|[_ H1]];
      apply lookup_insert_Some in H2 as [[<- <-]|[_ H2]]; try reflexivity.
    + rewrite (Hnone _ _ H2) in O2. discriminate.
    + rewrite (Hnone _ _ H1) in O1. discriminate.
    + rewrite (Hnone _ _ H1) in O1. discriminate.
  - rewrite orb_false_r. split; assumption.
Qed.

Lemma weather_single_flight_delete (h : TaskHandle) (w : World) :
  single_flight_inv w ->
  single_flight_inv {| fx := fx w; tasks := delete h (tasks w);
                       screen := screen w; fault := fault w |}.
Proof.
  intros [Hflag Huniq]. split; cbn [fx tasks].
  - intros k t Hk Ho. apply lookup_delete_Some in Hk as [_ Hk]. eauto.
  - intros h1 h2 t1 t2 H1 H2 O1 O2.
    apply lookup_delete_Some in H1 as [_ H1].
    apply lookup_delete_Some in H2 as [_ H2]. eauto.
Qed.

Lemma weather_single_flight_task_step self cfg net t (w : World) :
  single_flight_inv w -> tasks w !! self = Some t ->
  single_flight_inv
    (let '(s', t') := task_step cfg net t (fx w) in
     {| fx := s'; tasks := <[self := t']> (tasks w);
        screen := screen w; fault := fault w |}).
Proof.
  intros [Hflag Huniq] Hself.
  pose proof (weather_task_step_frame cfg net t (fx w)) as Hf.
  destruct (task_step cfg net t (fx w)) as [s' t'].
  destruct Hf as (Hout & Hdone). unfold single_flight_inv. cbn [fx tasks].
  split.
  - intros h u Hh Ho.
    apply lookup_insert_Some in Hh as [[<- <-]|[Hne Hh]].
    + destruct (Hout Ho) as [Ht ->]. eauto.
    + destruct (outstanding t') eqn:Ho'.
      * destruct (Hout eq_refl) as [Ht ->]. eauto.
      * destruct (Hdone eq_refl) as [Ht| ->]; [|eauto].
        exfalso. apply Hne. eapply Huniq; eauto.
  - intros h1 h2 t1 t2 H1 H2 O1 O2.
    apply lookup_insert_Some in H1 as [[<- <-]|[? H1]];
      apply lookup_insert_Some in H2 as [[<- <-]|[? H2]]; try reflexivity.
    + destruct (Hout O1) as [Ht _]. eapply Huniq; eauto.
    + destruct (Hout O2) as [Ht _]. eapply Huniq; eauto.
    + eapply Huniq; eauto.
Qed.

Lemma weather_single_flight_run_task self cfg net (w : World) :
  single_flight_inv w -> single_flight_inv (run_task self cfg net w).
Proof.
  intros Hw. unfold run_task.
  destruct (tasks w !! self) as [t|] eqn:Hself; [|assumption].
  pose proof (weather_single_flight_task_step self cfg net t w Hw Hself) as Hstep.
  destruct t; try exact Hstep.
  unfold vTaskDelete. destruct task; now apply weather_single_flight_delete.
Qed.

Lemma weather_single_flight_run (w : World) (es : list Event) :
  single_flight_inv w -> single_flight_inv (run w es).
Proof.
  revert w. induction es as [|e es IH]; intros w Hw; [exact Hw|].
  cbn [run fold_left]. apply IH. destruct e; cbn [step].
  - now apply weather_single_flight_Draw.
  - now apply weather_single_flight_run_task.
Qed.

Lemma weather_single_flight (w : World) now wifi timing cfg :
  single_flight_inv w ->
  (in_flight w <= 1)%nat /\
  (in_flight w <> 0%nat -> tasks (Draw now wifi timing cfg w) = tasks w).
Proof.
  intros [Hflag Huniq]. split.
  - apply count_unique, Huniq.
  - intros Hpos. apply count_nonzero in Hpos as (h & t & Hh & Ho).
    destruct (weather_Draw_refresh now wifi timing cfg w) as (-> & _).
    unfold spawns. rewrite (Hflag h t Hh Ho). cbn [negb andb].
    now rewrite andb_false_r.
Qed.

(** *** The icon numbers *)

Lemma getWeatherData_check_icon_ok pszName s :
  icon_ok (iconToday (getWeatherData_check pszName s)).
Proof. apply checked_icon_ok. Qed.

Lemma getTomorrowTemps_check_icon_ok s :
  icon_ok (iconTomorrow (getTomorrowTemps_check s)).
Proof. apply checked_icon_ok. Qed.

End WeatherFacts.

(** ** The refresh decisions, their bookkeeping and the failed fetch *)

Lemma insert_fresh_ne {A} (x : A) (m : gmap nat A) :
  <[fresh (dom m) := x]> m <> m.
Proof.
  intros Heq. apply (f_equal (fun m' => m' !! fresh (dom m))) in Heq.
  rewrite lookup_insert_eq in Heq. symmetry in Heq.
  apply (elem_of_dom_2 (D := gset nat)) in Heq. now apply is_fresh in Heq.
Qed.

Lemma getWeatherData_transport_error cfg r s :
  Weather.w_code r <= 0 -> Weather.getWeatherData cfg r s = (false, s).
Proof.
  intros Hcode. unfold Weather.getWeatherData.
  destruct (Z.ltb_spec 0 (Weather.w_code r)); [lia | reflexivity].
Qed.

(** C1.  In every world the stocks effect can reach from its start, and in
    every world the weather effect can reach, under any interleaving of
    frames and task statements and any answers of the network, at most one
    fetch task is outstanding; and while one is outstanding a frame leaves
    the task table as it is, whatever the clock, the connection, the timer
    and the configuration. *)
Theorem at_most_one_fetch_in_flight `{Build} (cszStockList : string) :
  (forall (t0 t1 : Z) (es : list Stocks.Event) (now : Z) (wifi : bool),
     let w := Stocks.run cszStockList (Stocks.boot t0 t1) es in
     (Stocks.in_flight w <= 1)%nat /\
     (Stocks.in_flight w <> 0%nat ->
      Stocks.tasks (Stocks.Draw now wifi w) = Stocks.tasks w)) /\
  (forall (es : list Weather.Event) (now : Z) (wifi timing : bool)
          (cfg : Weather.DeviceConfig),
     let w := Weather.run Weather.boot es in
     (Weather.in_flight w <= 1)%nat /\
     (Weather.in_flight w <> 0%nat ->
      Weather.tasks (Weather.Draw now wifi timing cfg w) = Weather.tasks w)).
Proof.
  split.
  - intros t0 t1 es now wifi w. apply stocks_single_flight.
    apply stocks_single_flight_run, stocks_single_flight_boot.
  - intros es now wifi timing cfg w. apply weather_single_flight.
    apply weather_single_flight_run, weather_single_flight_boot.
Qed.

Lemma at_most_one_fetch_in_flight_witness :
  let ws := Stocks.run (H := panel64x32) "AAPL,MSFT"
              (Stocks.boot (H := panel64x32) 0 0)
              [Stocks.Frame (seconds 1) true; Stocks.TaskStep 0 quoteAAPL;
               Stocks.TaskStep 0 quoteAAPL] in
  let ww := Weather.run (H := panel64x32) Weather.boot
              [Weather.Frame 1715100000 true true redmond;
               Weather.TaskStep 0 redmond network] in
  (Stocks.in_flight ws = 1%nat /\
   Stocks.fetch_due (seconds 62) (Stocks.fx ws) = true /\
   Stocks.tasks (Stocks.Draw (H := panel64x32) (seconds 62) true ws)
   = Stocks.tasks ws) /\
  (Weather.in_flight ww = 1%nat /\
   Weather.refresh_due true new_york 1715100031 (Weather.fx ww) = true /\
   Weather.tasks
     (Weather.Draw (H := panel64x32) 1715100031 true true new_york ww)
   = Weather.tasks ww).
Proof.
  intros ws ww.
  destruct (at_most_one_fetch_in_flight (H := panel64x32) "AAPL,MSFT") as [Hs Hw].
  split.
  - split; [vm_compute; reflexivity|]. split; [vm_compute; reflexivity|].
    apply (Hs 0 0 [Stocks.Frame (seconds 1) true; Stocks.TaskStep 0 quoteAAPL;
                   Stocks.TaskStep 0 quoteAAPL] (seconds 62) true).
    vm_compute. discriminate.
  - split; [vm_compute; reflexivity|]. split; [vm_compute; reflexivity|].
    apply (Hw [Weather.Frame 1715100000 true true redmond;
               Weather.TaskStep 0 redmond network] 1715100031 true true new_york).
    vm_compute. discriminate.
Defined.

(** The claim C2 fails ten seconds after a fetch.  The task spawned at
    [t = 1715100000] runs to its end; the configured location then changes;
    at [t + 10] the location differs from the recorded one and the
    decision is false, with the timer expired or not. *)
Lemma location_change_is_not_immediate :
  let w := Weather.run (H := panel64x32) Weather.boot
             (Weather.Frame 1715100000 true true redmond
              :: replicate 9 (Weather.TaskStep 0 redmond network)) in
  Weather.tasks w = ∅ /\
  Weather.strLocation (Weather.fx w) = "98052"%string /\
  Weather.HasLocationChanged new_york (Weather.fx w) = true /\
  Weather.refresh_due true new_york 1715100010 (Weather.fx w) = false /\
  Weather.refresh_due false new_york 1715100010 (Weather.fx w) = false /\
  Weather.tasks
    (Weather.Draw (H := panel64x32) 1715100010 true true new_york w) = ∅.
Proof. vm_compute. repeat split. Qed.

(** C2, amended.  When the location or the country differs from the one
    recorded, the decision of the weather effect is true exactly when at
    least 30 seconds have passed since the last spawn, whatever the timer
    says.  Ten seconds after a frame that spawned a task the decision is
    false, with or without a change of configuration.  In the stocks
    effect, whose interval is 60 seconds, the decision ten seconds after a
    frame in which it was true is false. *)
Theorem refresh_decisions `{Build} :
  (forall (timing : bool) (cfg : Weather.DeviceConfig) (now : Z)
          (s : Weather.PatternWeather),
     Weather.HasLocationChanged cfg s = true ->
     Weather.refresh_due timing cfg now s
     = (30 <=? now - Weather.latestUpdate s)) /\
  (forall (w : Weather.World) (now : Z) (wifi timing timing' : bool)
          (cfg cfg' : Weather.DeviceConfig),
     Weather.tasks (Weather.Draw now wifi timing cfg w) <> Weather.tasks w ->
     Weather.refresh_due timing' cfg' (now + 10)
       (Weather.fx (Weather.Draw now wifi timing cfg w)) = false) /\
  (forall (w : Stocks.World) (now : Z) (wifi : bool),
     wifi && Stocks.fetch_due now (Stocks.fx w) = true ->
     Stocks.fetch_due (now + seconds 10)
       (Stocks.fx (Stocks.Draw now wifi w)) = false).
Proof.
  split; [|split].
  - intros timing cfg now s Hchanged. unfold Weather.refresh_due.
    rewrite Hchanged, orb_true_r. reflexivity.
  - intros w now wifi timing timing' cfg cfg' Hspawn.
    destruct (weather_Draw_refresh now wifi timing cfg w) as (Ht & _ & Hl & _).
    destruct (Weather.spawns now wifi timing cfg w); [|congruence].
    unfold Weather.refresh_due. rewrite Hl.
    replace (now + 10 - now) with 10 by lia. apply andb_false_r.
  - intros w now wifi Hdue.
    destruct (stocks_Draw_refresh now wifi w) as (_ & _ & Hn).
    rewrite Hdue in Hn. unfold Stocks.fetch_due. rewrite Hn.
    apply Z.ltb_ge. unfold STOCKS_FETCH_INTERVAL_SECONDS, seconds, ticks_per_second.
    lia.
Qed.

Lemma refresh_decisions_witness :
  let w := Weather.run (H := panel64x32) Weather.boot
             (Weather.Frame 1715100000 true true redmond
              :: replicate 9 (Weather.TaskStep 0 redmond network)) in
  let ws := Stocks.boot (H := panel64x32) 0 0 in
  Weather.refresh_due false new_york 1715100030 (Weather.fx w) = true /\
  Weather.refresh_due true redmond (1715100000 + 10)
    (Weather.fx (Weather.Draw (H := panel64x32) 1715100000 true true redmond
                   Weather.boot)) = false /\
  Stocks.fetch_due (seconds 1 + seconds 10)
    (Stocks.fx (Stocks.Draw (H := panel64x32) (seconds 1) true ws)) = false.
Proof.
  intros w ws.
  destruct (refresh_decisions (H := panel64x32)) as (Hchange & Hweather & Hstocks).
  split; [|split].
  - rewrite (Hchange false new_york 1715100030 (Weather.fx w));
      vm_compute; reflexivity.
  - apply (Hweather Weather.boot 1715100000 true true true redmond redmond).
    vm_compute. discriminate.
  - apply (Hstocks ws (seconds 1) true). vm_compute. reflexivity.
Defined.

(** C7.  The weather effect holds a good reading; the next current-weather
    request is answered with status 401.  [getWeatherData] reports success
    and overwrites the reading: the temperature becomes the conversion of
    0 K, shown as -459, and the icon is dropped, while [dataReady] stays
    set.  The reading stored before is not kept. *)
Theorem getWeatherData_error_status_overwrites :
  let good := (Weather.getWeatherData redmond clear_sky
                 Weather.PatternWeather_new).2 in
  let result := Weather.getWeatherData redmond unauthorized good in
  (Weather.temperature good == 71996 # 1000 /\
   Weather.iconToday good = 1 /\ Weather.dataReady good = true) /\
  result.1 = true /\
  Weather.temperature result.2 == - (45967 # 100) /\
  float_to_int (Weather.temperature result.2) = -459 /\
  Weather.iconToday result.2 = -1 /\
  Weather.dataReady result.2 = true.
Proof. vm_compute. repeat split. Qed.

(** The claim C8 fails in the stocks effect while a fetch is outstanding.
    The frame at 1 s spawns a task; at 62 s the decision is true, the task
    is still there and no other is created, yet [nextFetch] moves from 61 s
    to 122 s. *)
Lemma nextFetch_moves_without_a_spawn :
  let w := Stocks.run (H := panel64x32) "AAPL,MSFT"
             (Stocks.boot (H := panel64x32) 0 0)
             [Stocks.Frame (seconds 1) true; Stocks.TaskStep 0 quoteAAPL] in
  let w' := Stocks.Draw (H := panel64x32) (seconds 62) true w in
  Stocks.in_flight w = 1%nat /\
  Stocks.fetch_due (seconds 62) (Stocks.fx w) = true /\
  Stocks.tasks w' = Stocks.tasks w /\
  Stocks.nextFetch (Stocks.fx w) = seconds 61 /\
  Stocks.nextFetch (Stocks.fx w') = seconds 122.
Proof. vm_compute. repeat split. Qed.

(** C8, amended.  In the weather effect [latestUpdate] is written on the
    frames that create a task, with the time of the frame, and on no other
    frame.  In the stocks effect [nextFetch] is set to 60 seconds ahead on
    every connected frame whose decision is true, whether or not a task is
    created by it, and is left alone on every other frame.  The decisions
    themselves are functions of the state and the clock. *)
Theorem refresh_bookkeeping `{Build} :
  (forall (w : Weather.World) (now : Z) (wifi timing : bool)
          (cfg : Weather.DeviceConfig),
     let w' := Weather.Draw now wifi timing cfg w in
     (Weather.tasks w' = Weather.tasks w ->
      Weather.latestUpdate (Weather.fx w') = Weather.latestUpdate (Weather.fx w)) /\
     (Weather.tasks w' <> Weather.tasks w ->
      Weather.latestUpdate (Weather.fx w') = now)) /\
  (forall (w : Stocks.World) (now : Z) (wifi : bool),
     Stocks.nextFetch (Stocks.fx (Stocks.Draw now wifi w))
     = if wifi && Stocks.fetch_due now (Stocks.fx w)
       then now + STOCKS_FETCH_INTERVAL_SECONDS
       else Stocks.nextFetch (Stocks.fx w)).
Proof.
  split.
  - intros w now wifi timing cfg w'. subst w'.
    destruct (weather_Draw_refresh now wifi timing cfg w) as (Ht & _ & Hl & _).
    rewrite Ht, Hl.
    destruct (Weather.spawns now wifi timing cfg w); split; try congruence.
    intros Heq. now apply insert_fresh_ne in Heq.
  - intros w now wifi. apply stocks_Draw_refresh.
Qed.

Lemma refresh_bookkeeping_witness :
  let w := Weather.Draw (H := panel64x32) 1715100000 true true redmond
             Weather.boot in
  Weather.latestUpdate (Weather.fx w) = 1715100000 /\
  Weather.latestUpdate
    (Weather.fx (Weather.Draw (H := panel64x32) 1715100031 true true new_york w))
  = 1715100000.
Proof.
  intros w.
  destruct (refresh_bookkeeping (H := panel64x32)) as [Hweather _].
  split.
  - apply (Hweather Weather.boot 1715100000 true true redmond).
    vm_compute. discriminate.
  - transitivity (Weather.latestUpdate (Weather.fx w)); [|reflexivity].
    apply (Hweather w 1715100031 true true new_york).
    vm_compute. reflexivity.
Defined.

(** C10.  The service answers with the icon of mist, 50d.  The task
    assigns 50 to [iconToday] and tests the range only afterwards; a frame
    drawn in between sees a number that is neither -1 nor below the
    thirteen elements of [pszWeatherIcons], and reads the table at index
    50, past its end.  The next step of the task puts -1 in its place.
    After the range test of either request the number is always -1 or at
    least 1 and below the size of the table. *)
Theorem icon_is_read_before_its_range_test :
  let w := Weather.run (H := panel64x32) Weather.boot
             [Weather.Frame 1715100000 true true redmond;
              Weather.TaskStep 0 redmond misty_network;
              Weather.TaskStep 0 redmond misty_network] in
  let w' := Weather.Draw (H := panel64x32) 1715100001 true false redmond w in
  (Weather.tasks w !! 0%nat = Some (Weather.StoredToday (Some "Redmond"%string)) /\
   Weather.fault w = false /\
   Weather.iconToday (Weather.fx w) = 50 /\
   Weather.ARRAYSIZE Weather.pszWeatherIcons = 13) /\
  (Weather.draw_icon 0 (Weather.iconToday (Weather.fx w)) = None /\
   Weather.fault w' = true) /\
  (Weather.iconToday
     (Weather.fx (Weather.run_task 0 redmond misty_network w')) = -1) /\
  (forall pszName s,
     Weather.icon_ok
       (Weather.iconToday (Weather.getWeatherData_check pszName s))) /\
  (forall s,
     Weather.icon_ok
       (Weather.iconTomorrow (Weather.getTomorrowTemps_check s))).
Proof.
  intros w w'.
  split; [repeat split; vm_compute; reflexivity|].
  split; [split; vm_compute; reflexivity|].
  split; [vm_compute; reflexivity|].
  split.
  - intros pszName s. apply getWeatherData_check_icon_ok.
  - intros s. apply getTomorrowTemps_check_icon_ok.
Qed.

(** * More of the stocks effect *)

Section StocksMore.
Import Stocks.

(** ** The symbol list *)

Section SplitFacts.

Lemma split_go_nonempty (d : ascii) (s token : string) :
  s <> EmptyString -> split_go d s token <> [].
Proof.
  revert token. induction s as [|c s IH]; intros token Hs; [contradiction|].
  cbn [split_go]. destruct (Ascii.eqb c d); [discriminate|].
  destruct s as [|c' s'].
  - cbn. destruct token; discriminate.
  - apply IH. discriminate.
Qed.

Lemma concat_cons (sep x : string) (l : list string) :
  l <> [] -> String.concat sep (x :: l) = x +:+ sep +:+ String.concat sep l.
Proof. destruct l; [contradiction | reflexivity]. Qed.

Lemma append_cons (x : ascii) (a b : string) :
  String x a +:+ b = String x (a +:+ b).
Proof. reflexivity. Qed.

Lemma append_assoc (a b c : string) : (a +:+ b) +:+ c = a +:+ (b +:+ c).
Proof.
  induction a as [|x a IH]; [reflexivity|]. rewrite !append_cons. now f_equal.
Qed.

Lemma append_nil_r (a : string) : a +:+ EmptyString = a.
Proof.
  induction a as [|x a IH]; [reflexivity|]. rewrite append_cons. now f_equal.
Qed.

Lemma split_go_join (d : ascii) (s token : string) :
  String.concat (String d EmptyString) (split_go d s token)
  +:+ (if ends_with d s then String d EmptyString else EmptyString)
  = token +:+ s.
Proof.
  revert token. induction s as [|c s IH]; intros token.
  - cbn [split_go ends_with]. destruct token; cbn; now rewrite ?append_nil_r.
  - cbn [split_go]. destruct (Ascii.eqb_spec c d) as [->|Hne].
    + destruct s as [|c' s'].
      * cbn. rewrite Ascii.eqb_refl. reflexivity.
      * rewrite concat_cons by (apply split_go_nonempty; discriminate).
        change (ends_with d (String d (String c' s')))
          with (ends_with d (String c' s')).
        rewrite !append_assoc, IH. reflexivity.
    + assert (ends_with d (String c s) = ends_with d s) as ->.
      { destruct s as [|c' s']; [|reflexivity].
        cbn. destruct (Ascii.eqb_spec c d); [contradiction | reflexivity]. }
      rewrite IH, append_assoc. reflexivity.
Qed.

Lemma in_append (c : ascii) (a b : string) :
  In c (list_ascii_of_string (a +:+ b)) <->
  In c (list_ascii_of_string a) \/ In c (list_ascii_of_string b).
Proof.
  induction a as [|x a IH]; [cbn; tauto|].
  rewrite append_cons. cbn [list_ascii_of_string In]. rewrite IH. tauto.
Qed.

Lemma split_go_tokens (d : ascii) (s token t : string) :
  ~ In d (list_ascii_of_string token) ->
  In t (split_go d s token) -> ~ In d (list_ascii_of_string t).
Proof.
  revert token. induction s as [|c s IH]; intros token Htok Hin.
  - cbn in Hin. destruct (isEmpty token); [contradiction|].
    destruct Hin as [<-|[]]. exact Htok.
  - cbn [split_go] in Hin. destruct (Ascii.eqb_spec c d) as [->|Hne].
    + destruct Hin as [<-|Hin]; [exact Htok|].
      apply (IH EmptyString); [intros [] | exact Hin].
    + apply (IH (token +:+ String c EmptyString)); [|exact Hin].
      rewrite in_append. cbn. intros [H|[H|[]]]; [now apply Htok | now apply Hne].
Qed.

(** X1.  The lambda [split] of [GetAllQuotes] loses nothing but a final
    delimiter: no token contains the delimiter, and joining the tokens
    with the delimiter, with one more delimiter at the end when the text
    ends with one, gives back the text. *)
Theorem split_round_trip (s : string) (delimiter : ascii) :
  (forall token, In token (split s delimiter) ->
     ~ In delimiter (list_ascii_of_string token)) /\
  String.concat (String delimiter EmptyString) (split s delimiter)
  +:+ (if ends_with delimiter s then String delimiter EmptyString
       else EmptyString)
  = s.
Proof.
  split.
  - intros token. apply split_go_tokens. intros [].
  - apply (split_go_join delimiter s EmptyString).
Qed.

End SplitFacts.

Lemma split_round_trip_witness :
  ~ In ","%char (list_ascii_of_string "AAPL") /\
  String.concat "," (split "AAPL,MSFT," ",") +:+ "," = "AAPL,MSFT,"%string.
Proof.
  destruct (split_round_trip "AAPL,MSFT," ",") as [Htokens Hjoin].
  split; [|exact Hjoin].
  apply Htokens. vm_compute. left. reflexivity.
Defined.

(** ** The quote store over a run *)

Section StoreFacts.
Context `{Build} (cszStockList : string).

Lemma stocks_Draw_stockData (now : Z) (wifi : bool) (w : World) :
  stockData (fx (Draw now wifi w)) = stockData (fx w).
Proof.
  unfold Draw, UpdateQuoteDisplay. cbv zeta. cbn [fx stockData set_texts].
  match goal with |- context [if rotate_due now ?w1 then _ else _] =>
    assert (stockData (fx w1) = stockData (fx w)) as Hw1;
    [|destruct (rotate_due now w1); [|exact Hw1]] end.
  - destruct (wifi && _); [|reflexivity].
    unfold BackgroundFetchQuotes, with_fx. cbn [fx isUpdating set_nextFetch].
    destruct (negb _); reflexivity.
  - rewrite <- Hw1. unfold rotate. cbn [fx stockData set_lastUpdate].
    destruct (negb _); [|reflexivity]. destruct (advance _ _); reflexivity.
Qed.

Lemma stocks_run_task_stockData (i : nat) (r : HttpResponse) (w : World) :
  stockData (fx (run_task cszStockList i r w)) = stockData (fx w) \/
  stockData (fx (run_task cszStockList i r w))
  = storeQuote (GetQuote r) (stockData (fx w)).
Proof.
  unfold run_task. destruct (tasks w !! i) as [t|]; [|now left].
  destruct t as [|[|sym rest]|]; cbn; auto.
Qed.


Lemma storeQuote_keeps (d : StockData) (m : gmap string StockData) (k : string) :
  is_Some (m !! k) -> is_Some (storeQuote d m !! k).
Proof.
  intros Hk. unfold storeQuote. destruct (negb _); [|exact Hk].
  rewrite lookup_insert. destruct (decide (symbol d = k)); [eauto | exact Hk].
Qed.


(** X3.  A symbol that has a quote in the store keeps one, whatever frames
    and task statements follow and whatever the server answers: a failed
    fetch removes nothing. *)
Theorem stored_quote_is_never_removed (w : World) (es : list Event) (k : string) :
  is_Some (stockData (fx w) !! k) ->
  is_Some (stockData (fx (run cszStockList w es)) !! k).
Proof.
  revert w. induction es as [|e es' IH]; intros w Hk; [exact Hk|].
  cbn [run fold_left]. apply IH. destruct e as [now wifi|i r]; cbn [step].
  - now rewrite stocks_Draw_stockData.
  - destruct (stocks_run_task_stockData i r w) as [-> | ->];
      [exact Hk | now apply storeQuote_keeps].
Qed.

End StoreFacts.


Lemma stored_quote_is_never_removed_witness :
  let w := run (H := panel64x32) "AAPL" (boot (H := panel64x32) 0 0)
             [Frame (seconds 1) true; TaskStep 0 quoteAAPL;
              TaskStep 0 quoteAAPL] in
  is_Some (stockData (fx (run (H := panel64x32) "AAPL" w
             [TaskStep 0 {| httpCode := 500; payload := None |};
              Frame (seconds 70) true;
              TaskStep 0 {| httpCode := 200; payload := None |}])) !! "AAPL").
Proof.
  intros w. apply (stored_quote_is_never_removed (H := panel64x32) "AAPL" w).
  vm_compute. eauto.
Defined.

Lemma GetAllQuotes_snoc (answers : list HttpResponse) (r : HttpResponse)
    (m : gmap string StockData) :
  GetAllQuotes (answers ++ [r]) m = storeQuote (GetQuote r) (GetAllQuotes answers m).
Proof. unfold GetAllQuotes. now rewrite fold_left_app. Qed.

(** X4.  After [GetAllQuotes] has taken the answers for its symbols in
    turn, the store holds under a non-empty symbol the quote of the last
    answer that carries this symbol, and what it held before when no answer
    carries it. *)
Theorem GetAllQuotes_last_answer_wins
    (answers : list HttpResponse) (m : gmap string StockData) (k : string) :
  k <> EmptyString ->
  GetAllQuotes answers m !! k
  = match last (filter (fun r => symbol (GetQuote r) = k) answers) with
    | Some r => Some (GetQuote r)
    | None => m !! k
    end.
Proof.
  intros Hk. induction answers as [|r answers IH] using rev_ind; [reflexivity|].
  rewrite GetAllQuotes_snoc, filter_app. unfold storeQuote.
  rewrite filter_cons, filter_nil.
  destruct (decide (symbol (GetQuote r) = k)) as [Heq|Hne].
  - rewrite last_snoc. destruct (isEmpty (symbol (GetQuote r))) eqn:E.
    + apply isEmpty_true in E. congruence.
    + cbn [negb]. rewrite Heq. apply lookup_insert_eq.
  - rewrite app_nil_r, <- IH. destruct (negb _); [|reflexivity].
    now apply lookup_insert_ne.
Qed.

Lemma GetAllQuotes_last_answer_wins_witness :
  let stale := {| httpCode := 200;
                  payload := Some {| j_symbol := "AAPL"; j_timestamp := None;
                                     j_open := None; j_high := None;
                                     j_low := None; j_close := Some (100 # 1);
                                     j_volume := None; j_points := [] |} |} in
  let failed := {| httpCode := 500; payload := None |} in
  GetAllQuotes [stale; quoteAAPL; failed] ∅ !! "AAPL" = Some (GetQuote quoteAAPL).
Proof.
  intros stale failed.
  rewrite (GetAllQuotes_last_answer_wins [stale; quoteAAPL; failed] ∅ "AAPL");
    [reflexivity | discriminate].
Defined.

(** ** A fetch task from its creation to its end *)

Section TaskRun.
Context `{Build} (cszStockList : string).

Lemma stocks_fetching_run (i : nat) (answers : list HttpResponse) :
  forall (syms : list string) (w : World),
    tasks w !! i = Some (Fetching syms) ->
    length answers = length syms ->
    run cszStockList w (TaskStep i <$> answers)
    = {| fx := set_stockData (GetAllQuotes answers (stockData (fx w))) (fx w);
         lastCount := lastCount w;
         tasks := <[i := Fetching []]> (tasks w);
         screen := screen w |}.
Proof.
  induction answers as [|r answers IH]; intros syms w Hi Hlen.
  - destruct syms; [|discriminate]. rewrite insert_id by exact Hi.
    destruct w as [[] ? ? ?]. reflexivity.
  - destruct syms as [|sym rest]; [discriminate|].
    cbn [fmap list_fmap run fold_left step].
    change (fold_left (step cszStockList) (TaskStep i <$> answers) ?w0)
      with (run cszStockList w0 (TaskStep i <$> answers)).
    unfold run_task at 1. rewrite Hi. cbn [task_step].
    rewrite (IH rest); cbn [tasks fx lastCount screen stockData set_stockData].
    + rewrite insert_insert_eq. reflexivity.
    + apply lookup_insert_eq.
    + now injection Hlen.
Qed.

(** X5.  A fetch task that has been created and runs its statements to the
    end, one answer per symbol of the list and no other event in between,
    leaves the store as [GetAllQuotes] leaves it on these answers, clears
    [isUpdating] and is gone from the task table. *)
Theorem fetch_task_runs_to_its_end (i : nat) (w : World)
    (first last1 last2 : HttpResponse) (answers : list HttpResponse) :
  tasks w !! i = Some Created ->
  length answers = length (split cszStockList ",") ->
  run cszStockList w
    (TaskStep i first :: (TaskStep i <$> answers)
     ++ [TaskStep i last1; TaskStep i last2])
  = {| fx := set_isUpdating false
               (set_stockData (GetAllQuotes answers (stockData (fx w))) (fx w));
       lastCount := lastCount w;
       tasks := delete i (tasks w);
       screen := screen w |}.
Proof.
  intros Hi Hlen. cbn [run fold_left step].
  unfold run_task at 1. rewrite Hi. cbn [task_step].
  rewrite fold_left_app.
  change (fold_left (step cszStockList) (TaskStep i <$> answers) ?w0)
    with (run cszStockList w0 (TaskStep i <$> answers)).
  rewrite (stocks_fetching_run i answers (split cszStockList ","));
    [|apply lookup_insert_eq | exact Hlen].
  cbn [fold_left step tasks fx lastCount screen].
  unfold run_task at 2. cbn [tasks]. rewrite lookup_insert_eq. cbn [task_step fx].
  unfold run_task. cbn [tasks]. rewrite lookup_insert_eq.
  cbn [task_step fx lastCount screen tasks].
  rewrite !delete_insert_eq. reflexivity.
Qed.

End TaskRun.

Lemma fetch_task_runs_to_its_end_witness :
  let w := Draw (H := panel64x32) (seconds 1) true (boot (H := panel64x32) 0 0) in
  let failed := {| httpCode := 500; payload := None |} in
  let w' := run (H := panel64x32) "AAPL,MSFT" w
              (TaskStep 0 failed :: (TaskStep 0 <$> [quoteAAPL; failed])
               ++ [TaskStep 0 failed; TaskStep 0 failed]) in
  tasks w' = ∅ /\ isUpdating (fx w') = false /\
  stockData (fx w') = {[ "AAPL"%string := GetQuote quoteAAPL ]}.
Proof.
  intros w failed w'. subst w'.
  rewrite (fetch_task_runs_to_its_end (H := panel64x32) "AAPL,MSFT" 0 w
             failed failed failed [quoteAAPL; failed]);
    [|vm_compute; reflexivity | reflexivity].
  cbn [tasks fx isUpdating set_isUpdating stockData set_stockData].
  split; [vm_compute; reflexivity|]. split; [reflexivity|].
  vm_compute. reflexivity.
Defined.

(** ** Rotation *)

Section RotationFacts.
Context `{Build}.

Lemma rotate_step (now : Z) (w : World) :
  size (stockData (fx w)) <> 0%nat ->
  stockData (fx (rotate now w)) = stockData (fx w) /\
  iCurrentStock (fx (rotate now w))
  = (iCurrentStock (fx w) + 1) mod Z.of_nat (size (stockData (fx w))) /\
  (forall data,
     advance (stockData (fx w)) (iCurrentStock (fx (rotate now w))) = Some data ->
     text (textSymbol (fx (rotate now w))) = symbol data).
Proof.
  intros Hn. unfold rotate. cbn [fx stockData set_lastUpdate iCurrentStock].
  destruct (Nat.eqb_spec (size (stockData (fx w))) 0); [contradiction|].
  cbn [negb set_iCurrentStock set_lastUpdate stockData iCurrentStock].
  destruct (advance _ _) as [d|] eqn:E;
    unfold StartQuoteDisplay;
    cbn [fx stockData iCurrentStock set_texts set_iCurrentStock set_lastUpdate
         textSymbol text AnimatedText_new];
    (split; [reflexivity|]); (split; [reflexivity|]); intros data Hd;
    rewrite E in Hd; congruence.
Qed.

(** X6.  Rotation walks the store in key order and wraps around: after any
    number of rotations of a store that holds quotes, the store is as it
    was, the index has advanced by that number modulo the size, and the
    symbol text shows the symbol of the entry at the index. *)
Theorem rotation_cycles_through_the_store (times : list Z) (w : World) :
  let n := Z.of_nat (size (stockData (fx w))) in
  let w' := fold_left (fun w now => rotate now w) times w in
  0 <= iCurrentStock (fx w) < n ->
  stockData (fx w') = stockData (fx w) /\
  iCurrentStock (fx w') = (iCurrentStock (fx w) + Z.of_nat (length times)) mod n /\
  (times <> [] ->
   exists data,
     advance (stockData (fx w)) (iCurrentStock (fx w')) = Some data /\
     text (textSymbol (fx w')) = symbol data).
Proof.
  intros n w' Hi. subst w'.
  assert (size (stockData (fx w)) <> 0%nat) as Hn by lia.
  induction times as [|now times IH] using rev_ind.
  - cbn. split; [reflexivity|]. split; [|congruence].
    rewrite Z.add_0_r, Z.mod_small; [reflexivity | exact Hi].
  - rewrite fold_left_app. cbn [fold_left].
    destruct IH as (Hs & Hidx & _).
    destruct (rotate_step now (fold_left (fun w now => rotate now w) times w))
      as (Hs' & Hidx' & Htext); [now rewrite Hs|].
    rewrite Hs in Hs', Hidx', Htext. fold n in Hidx'.
    assert (iCurrentStock
              (fx (rotate now (fold_left (fun w now => rotate now w) times w)))
            = (iCurrentStock (fx w) + Z.of_nat (length (times ++ [now]))) mod n)
      as Hnew.
    { rewrite Hidx', Hidx, length_app, Nat2Z.inj_add. cbn [length].
      rewrite Z.add_mod_idemp_l by lia. f_equal. lia. }
    split; [exact Hs'|]. split; [exact Hnew|]. intros _.
    destruct (advance_in_range (stockData (fx w))
                (iCurrentStock
                   (fx (rotate now (fold_left (fun w now => rotate now w) times w)))))
      as [data Hdata].
    { rewrite Hnew. apply Z.mod_pos_bound. lia. }
    exists data. split; [exact Hdata | now apply Htext].
Qed.

End RotationFacts.

Lemma rotation_cycles_through_the_store_witness :
  let m := <["CL"%string := negative_history]>
             {[ "AAPL"%string := GetQuote quoteAAPL ]} in
  let w := with_fx (set_stockData m) (boot (H := panel64x32) 0 0) in
  let w' := fold_left (fun w now => rotate (H := panel64x32) now w)
              [seconds 30; seconds 60; seconds 90] w in
  iCurrentStock (fx w') = 1 /\ text (textSymbol (fx w')) = "CL"%string.
Proof.
  intros m w w'.
  destruct (rotation_cycles_through_the_store (H := panel64x32)
              [seconds 30; seconds 60; seconds 90] w)
    as (_ & Hidx & Htext); [vm_compute; split; [discriminate | reflexivity]|].
  split; [exact Hidx|].
  destruct (Htext ltac:(discriminate)) as (data & Hdata & Hsym).
  rewrite Hidx in Hdata. vm_compute in Hdata. injection Hdata as <-.
  exact Hsym.
Defined.

(** ** Where the texts are *)

Section TextPositions.

Lemma lerp_0 (from to : Z) : lerp from to 0 = from.
Proof.
  unfold lerp. transitivity (float_to_int (inject_Z from));
    [|apply float_to_int_inject].
  apply float_to_int_comp. rewrite Qmult_0_r, Qplus_0_r. reflexivity.
Qed.

Lemma lerp_between (from to : Z) (p : Q) :
  (0 <= p <= 1)%Q -> Z.min from to <= lerp from to p <= Z.max from to.
Proof.
  intros [H0 H1].
  pose proof (lerp_0 from to) as E0. pose proof (lerp_1 from to) as E1.
  destruct (Z.le_ge_cases from to) as [Hle|Hge].
  - pose proof (lerp_up from to 0 p Hle H0).
    pose proof (lerp_up from to p 1 Hle H1). lia.
  - pose proof (lerp_down from to 0 p Hge H0).
    pose proof (lerp_down from to p 1 Hge H1). lia.
Qed.

(** X7.  From its start time on, an element with a positive duration is
    inside the box spanned by its start and end positions, and at the
    start time it is exactly at the start position. *)
Theorem UpdatePos_stays_between_start_and_end (a : AnimatedText) (now : Z) :
  (0 < animationTime a)%Q ->
  startTime a <= now ->
  let a' := UpdatePos now a in
  Z.min (startX a) (endX a) <= currentX a' <= Z.max (startX a) (endX a) /\
  Z.min (startY a) (endY a) <= currentY a' <= Z.max (startY a) (endY a) /\
  (now = startTime a -> currentX a' = startX a /\ currentY a' = startY a).
Proof.
  intros Ha Ht a'. subst a'. cbn [UpdatePos currentX currentY].
  assert (0 <= progress now a <= 1)%Q as Hp
    by (split; [now apply progress_nonneg | apply progress_le_1]).
  split; [now apply lerp_between|]. split; [now apply lerp_between|].
  intros ->.
  assert (progress (startTime a) a == 0) as H0.
  { unfold progress, elapsedTime. rewrite Z.sub_diag.
    assert (duration_float 0 / animationTime a == 0) as Hz
      by (assert (duration_float 0 == 0) as -> by reflexivity;
          unfold Qdiv; apply Qmult_0_l).
    revert Hz. generalize (duration_float 0 / animationTime a)%Q. intros x Hz.
    unfold std_min. destruct (Qlt_le_dec 1 x); lra. }
  rewrite !(lerp_comp _ _ _ _ H0), !lerp_0. split; reflexivity.
Qed.

Lemma UpdatePos_stays_between_start_and_end_witness :
  let a := AnimatedText_new 0 "STOCK" White 1 64 0 0 0 in
  0 <= currentX (UpdatePos 250000000 a) <= 64 /\
  currentX (UpdatePos 0 a) = 64.
Proof.
  intros a.
  destruct (UpdatePos_stays_between_start_and_end a 250000000)
    as (Hx & _ & _); [reflexivity | vm_compute; discriminate |].
  destruct (UpdatePos_stays_between_start_and_end a 0)
    as (_ & _ & Hstart); [reflexivity | vm_compute; discriminate |].
  split; [exact Hx | now apply Hstart].
Defined.

Lemma duration_float_seconds (n : Z) : duration_float (seconds n) == inject_Z n.
Proof.
  unfold duration_float, seconds. rewrite inject_Z_mult. field.
  intros Hz. discriminate Hz.
Qed.

Lemma settled (a : AnimatedText) (now : Z) :
  (0 < animationTime a)%Q -> (animationTime a <= 1)%Q ->
  seconds 1 <= now - startTime a ->
  currentX (UpdatePos now a) = endX a /\ currentY (UpdatePos now a) = endY a.
Proof.
  intros Ha H1 Ht.
  assert (progress now a == 1) as Hp.
  { apply progress_settled; [exact Ha|]. unfold elapsedTime.
    pose proof (duration_float_le _ _ Ht) as Hle.
    rewrite duration_float_seconds in Hle. change (inject_Z 1) with 1%Q in Hle.
    lra. }
  cbn [UpdatePos currentX currentY].
  rewrite !(lerp_comp _ _ _ _ Hp), !lerp_1. split; reflexivity.
Qed.

(** X8.  One second after a retarget all four texts are at rest: the symbol
    at the left edge on row 8, and price, change and volume ending at the
    right edge, at five pixels per character, on rows 8, 15 and 22. *)
Theorem quote_texts_come_to_rest_flush_right `{Build}
    (now later : Z) (data : StockData) (s : PatternStocks) :
  seconds 1 <= later - now ->
  let s' := StartQuoteDisplay now data s in
  let rest (a : AnimatedText) :=
    (currentX (UpdatePos later a)
     + 5 * Z.of_nat (String.length (text a)),
     currentY (UpdatePos later a)) in
  (currentX (UpdatePos later (textSymbol s')),
   currentY (UpdatePos later (textSymbol s'))) = (0, 8) /\
  rest (textPrice s') = (MATRIX_WIDTH, 8) /\
  rest (textChange s') = (MATRIX_WIDTH, 15) /\
  rest (textVolume s') = (MATRIX_WIDTH, 22).
Proof.
  intros Hlater s' rest. subst rest s'. cbv beta.
  repeat split.
  all: match goal with |- context [UpdatePos ?t ?a] =>
         destruct (settled a t) as [-> ->];
         [reflexivity | cbn; lra | assumption |]
       end.
  all: unfold StartQuoteDisplay;
    cbn [textSymbol textPrice textChange textVolume set_texts AnimatedText_new
         endX endY text]; f_equal; lia.
Qed.

Lemma quote_texts_come_to_rest_flush_right_witness :
  let s' := StartQuoteDisplay (H := panel64x32) (seconds 5) (GetQuote quoteAAPL)
              (PatternStocks_new (H := panel64x32) 0) in
  text (textPrice s') = "183.25"%string /\
  currentX (UpdatePos (seconds 6) (textPrice s')) + 5 * 6 = 64 /\
  currentX (UpdatePos (seconds 6) (textSymbol s')) = 0.
Proof.
  intros s'.
  destruct (quote_texts_come_to_rest_flush_right (H := panel64x32)
              (seconds 5) (seconds 6) (GetQuote quoteAAPL)
              (PatternStocks_new (H := panel64x32) 0))
    as (Hsym & Hprice & _); [vm_compute; discriminate|].
  split; [vm_compute; reflexivity|]. split.
  - apply (f_equal fst) in Hprice. exact Hprice.
  - apply (f_equal fst) in Hsym. exact Hsym.
Defined.

End TextPositions.

(** ** The history graph on the panel *)

Section GraphFacts.
Context `{Build}.

Lemma segments_spec (y h : Z) (mn scale be beY : Q) (pts : list StockPoint) :
  forall (i : Z),
    length (segments y h mn scale be beY i pts) = (length pts - 1)%nat /\
    (forall c, In c (segments y h mn scale be beY i pts) ->
       exists k y0 y1 col,
         c = DrawLine (MATRIX_WIDTH - 1 - k) y0 (MATRIX_WIDTH - 1 - k) y1 col /\
         i <= k < i + Z.of_nat (length pts) - 1 /\
         (col = Red \/ col = Green)).
Proof.
  induction pts as [|p pts IH]; intros i; [split; [reflexivity | intros c []]|].
  destruct pts as [|q pts]; [split; [reflexivity | intros c []]|].
  destruct (IH (i + 1)) as [Hlen Hin].
  remember (q :: pts) as rest eqn:Hrest.
  assert (exists y0 y1 col,
            segments y h mn scale be beY i (p :: rest)
            = DrawLine (MATRIX_WIDTH - 1 - i) y0 (MATRIX_WIDTH - 1 - i) y1 col
              :: segments y h mn scale be beY (i + 1) rest /\
            (col = Red \/ col = Green)) as (y0 & y1 & col & -> & Hcol).
  { subst rest. cbn [segments]. rewrite !float_to_int_inject.
    destruct (Qlt_le_dec (val p) be); eauto 10. }
  assert (length rest <> 0%nat) as Hne by (subst rest; discriminate).
  split.
  - cbn [length]. rewrite Hlen. lia.
  - intros c [<-|Hc].
    + exists i, y0, y1, col. split; [reflexivity|]. cbn [length].
      split; [lia | exact Hcol].
    + destruct (Hin c Hc) as (k & z0 & z1 & col' & -> & Hk & Hcol').
      exists k, z0, z1, col'. split; [reflexivity|]. cbn [length].
      split; [lia | exact Hcol'].
Qed.

(** X9.  The history graph is made of vertical lines only, at most one for
    every drawn point but the first, each in a column right of column 0 and
    left of MATRIX_WIDTH, in red or green; and no more than MATRIX_WIDTH
    points are drawn. *)
Theorem graph_is_vertical_segments_on_the_panel (cs : StockData) :
  Z.of_nat (length (graph cs)) <= Z.max 0 (graph_count cs - 1) /\
  graph_count cs <= MATRIX_WIDTH /\
  (forall c, In c (graph cs) ->
     exists x y0 y1 col,
       c = DrawLine x y0 x y1 col /\ 0 < x < MATRIX_WIDTH /\
       (col = Red \/ col = Green)).
Proof.
  assert (graph_count cs <= MATRIX_WIDTH) as Hw by (unfold graph_count; lia).
  assert (0 < graph_count cs ->
          Z.of_nat (length (graph_points cs)) = graph_count cs) as Hn.
  { unfold graph_points, graph_count. intros Hpos. rewrite length_take. lia. }
  unfold graph. cbv zeta.
  destruct (Z.ltb_spec 0 (graph_count cs)) as [Hpos|Hneg];
    [|cbn; repeat split; try lia; intros c []].
  destruct (extrema (graph_points cs)) as [mx mn].
  destruct (Qlt_le_dec 0 (mx - mn)); [|cbn; repeat split; try lia; intros c []].
  match goal with |- context [segments ?y ?h ?m ?sc ?b ?bY 0 ?pts] =>
    destruct (segments_spec y h m sc b bY pts 0) as [Hlen Hin] end.
  rewrite Hlen. specialize (Hn Hpos). split; [lia|]. split; [exact Hw|].
  intros c Hc. destruct (Hin c Hc) as (k & y0 & y1 & col & -> & Hk & Hcol).
  exists (MATRIX_WIDTH - 1 - k), y0, y1, col.
  split; [reflexivity|]. split; [lia | exact Hcol].
Qed.

End GraphFacts.

Lemma graph_is_vertical_segments_on_the_panel_witness :
  exists x y0 y1 col,
    DrawLine 63 29 63 26 Red = DrawLine x y0 x y1 col /\ 0 < x < 64 /\
    (col = Red \/ col = Green).
Proof.
  destruct (graph_is_vertical_segments_on_the_panel (H := panel64x32)
              negative_history) as (_ & _ & Hcalls).
  apply Hcalls. vm_compute. left. reflexivity.
Defined.

Lemma extrema_spec_witness :
  let pts := [ {| dt := 0; val := 18250 # 100 |};
               {| dt := 1; val := 18100 # 100 |};
               {| dt := 2; val := 18400 # 100 |} ] in
  extrema pts = (18400 # 100, 18100 # 100) /\
  (forall p, In p pts -> (18100 # 100 <= val p <= 18400 # 100)%Q).
Proof.
  intros pts.
  assert (extrema pts = (18400 # 100, 18100 # 100)) as E
    by (vm_compute; reflexivity).
  split; [exact E|].
  pose proof (extrema_spec pts) as Hspec. rewrite E in Hspec.
  apply Hspec; [discriminate|].
  intros p [<-|[<-|[<-|[]]]]; vm_compute; discriminate.
Defined.

Lemma stocks_reachable_wellformed_witness :
  let es := [Frame (seconds 1) true; TaskStep 0 quoteAAPL;
             TaskStep 0 quoteAAPL; Frame (seconds 2) true] in
  let w := run (H := panel64x32) "AAPL" (boot (H := panel64x32) 0 0) es in
  positive_durations (fx w) /\
  is_Some (advance (stockData (fx w)) (iCurrentStock (fx w))).
Proof.
  intros es w.
  destruct (stocks_reachable_wellformed (H := panel64x32) "AAPL" 0 0 es)
    as [Hd Hidx].
  split; [exact Hd|].
  destruct Hidx as [Hcurrent _]; [vm_compute; discriminate | exact Hcurrent].
Defined.

End StocksMore.

(** * More of the weather effect *)

(** ** The three requests of the weather task *)

Section WeatherRequests.
Import Weather.

Lemma HasLocationChanged_false (cfg : DeviceConfig) (s : PatternWeather) :
  HasLocationChanged cfg s = false <->
  strLocation s = GetLocation cfg /\ strCountryCode s = GetCountryCode cfg.
Proof.
  unfold HasLocationChanged. rewrite orb_false_iff, !negb_false_iff.
  rewrite !String.eqb_eq. reflexivity.
Qed.

(** X13.  [updateCoordinates] reports success exactly when the configured
    location differs from the recorded one and the request got a positive
    status; it then records the configured location and the coordinates of
    the answer, so that the location no longer counts as changed; otherwise
    it changes nothing. *)
Theorem updateCoordinates_records_the_location
    (cfg : DeviceConfig) (r : GeoResponse) (s : PatternWeather) :
  let result := updateCoordinates cfg r s in
  (result.1 = true <-> HasLocationChanged cfg s = true /\ 0 < geo_code r) /\
  (result.1 = true ->
   HasLocationChanged cfg result.2 = false /\
   strLatitude result.2 = geo_lat r /\ strLongitude result.2 = geo_lon r) /\
  (result.1 = false -> result.2 = s).
Proof.
  unfold updateCoordinates.
  destruct (HasLocationChanged cfg s) eqn:Hc; cbn [negb].
  - destruct (Z.leb_spec (geo_code r) 0); cbn [fst snd].
    + repeat split; try discriminate. intros [_ ?]. lia.
    + repeat split; try discriminate; try lia.
      apply HasLocationChanged_false. split; reflexivity.
  - cbn [fst snd]. repeat split; try discriminate. intros [? _]. discriminate.
Qed.

Lemma updateCoordinates_records_the_location_witness :
  let result := updateCoordinates redmond (geo network) PatternWeather_new in
  HasLocationChanged redmond result.2 = false /\
  strLatitude result.2 = "47.67"%string.
Proof.
  intros result.
  destruct (updateCoordinates_records_the_location redmond (geo network)
              PatternWeather_new) as (_ & Hok & _).
  destruct Hok as (Hc & Hlat & _); [reflexivity|].
  split; [exact Hc | exact Hlat].
Defined.

(** X14.  [getTomorrowTemps] reports success exactly on a positive status
    and changes nothing otherwise; it never touches the fields of today;
    the high and the low of tomorrow change only to the conversion of a
    positive reading of an entry dated tomorrow; and when the answer has no
    entry dated tomorrow the icon is -1. *)
Theorem getTomorrowTemps_overwrites_only_with_positive_readings
    (cfg : DeviceConfig) (r : ForecastResponse) (s : PatternWeather) :
  let result := getTomorrowTemps cfg r s in
  (result.1 = true <-> 0 < f_code r) /\
  (result.1 = false -> result.2 = s) /\
  (temperature result.2, highToday result.2, loToday result.2,
   iconToday result.2, dataReady result.2)
  = (temperature s, highToday s, loToday s, iconToday s, dataReady s) /\
  (highTomorrow result.2 <> highTomorrow s ->
   exists e x, In e (list_entries r) /\
     String.prefix (dateStr r) (dt_txt e) = true /\
     entry_temp_max e = Some x /\ (0 < x)%Q /\
     highTomorrow result.2 = KelvinToLocal cfg x) /\
  (loTomorrow result.2 <> loTomorrow s ->
   exists e x, In e (list_entries r) /\
     String.prefix (dateStr r) (dt_txt e) = true /\
     entry_temp_min e = Some x /\ (0 < x)%Q /\
     loTomorrow result.2 = KelvinToLocal cfg x) /\
  (0 < f_code r ->
   (forall e, In e (list_entries r) ->
      String.prefix (dateStr r) (dt_txt e) = false) ->
   iconTomorrow result.2 = -1).
Proof.
  unfold getTomorrowTemps.
  destruct (Z.ltb_spec 0 (f_code r)) as [Hcode|Hcode]; cbn [fst snd].
  2: { split; [split; [discriminate | lia]|]. split; [reflexivity|].
       split; [reflexivity|]. split; [congruence|]. split; [congruence | lia]. }
  split; [split; [intros _; exact Hcode | reflexivity]|].
  split; [discriminate|].
  destruct (find _ _) as [e|] eqn:Hfind;
    cbn [highTomorrow loTomorrow iconTomorrow set_tomorrow temperature
         highToday loToday iconToday dataReady].
  - apply find_some in Hfind as [Hin Hpre].
    split; [reflexivity|]. split; [|split].
    + intros Hne. destruct (entry_temp_max e) as [x|] eqn:Ex; [|now cbn in Hne].
      cbn [positive_member as_float default] in *.
      destruct (Qlt_le_dec 0 x); [|congruence]. exists e, x. repeat split; auto.
    + intros Hne. destruct (entry_temp_min e) as [x|] eqn:Ex; [|now cbn in Hne].
      cbn [positive_member as_float default] in *.
      destruct (Qlt_le_dec 0 x); [|congruence]. exists e, x. repeat split; auto.
    + intros _ Hnone. rewrite (Hnone e Hin) in Hpre. discriminate.
  - split; [reflexivity|]. split; [congruence|]. split; [congruence|].
    reflexivity.
Qed.

Lemma getTomorrowTemps_overwrites_only_with_positive_readings_witness :
  let s := (getWeatherData redmond clear_sky PatternWeather_new).2 in
  let r := {| f_code := 200;
              list_entries :=
                [ {| dt_txt := "2024-05-08 12:00:00"; entry_temp_max := None;
                     entry_temp_min := Some (28500 # 100);
                     entry_icon := "10d" |} ];
              dateStr := "2024-05-09" |} in
  iconTomorrow (getTomorrowTemps redmond r s).2 = -1 /\
  highTomorrow (getTomorrowTemps redmond r s).2 = highTomorrow s.
Proof.
  intros s r.
  destruct (getTomorrowTemps_overwrites_only_with_positive_readings redmond r s)
    as (_ & _ & _ & _ & _ & Hicon).
  split; [|reflexivity].
  apply Hicon; [reflexivity|]. intros e [<-|[]]. reflexivity.
Defined.

End WeatherRequests.

(** ** The weather effect over a run *)

Section WeatherRuns.
Import Weather.
Context `{Build}.

Lemma weather_Draw_fields now wifi timing cfg (w : World) :
  dataReady (fx (Draw now wifi timing cfg w)) = dataReady (fx w).
Proof.
  unfold Draw. cbv zeta. cbn [fx].
  destruct (wifi && _); [|reflexivity].
  unfold spawn. destruct (negb _ && _); reflexivity.
Qed.

Lemma weather_run_task_dataReady self cfg net (w : World) :
  let w' := run_task self cfg net w in
  dataReady (fx w') = dataReady (fx w) \/
  (dataReady (fx w') = true /\
   0 < w_code (today net) /\ positive_member (main_temp (today net)) = true).
Proof.
  unfold run_task. destruct (tasks w !! self) as [t|]; [|now left].
  destruct t as [| |pszName|[|]| | | | |]; cbn [task_step fx]; try (now left).
  - left. unfold updateCoordinates.
    destruct (negb _); [reflexivity|]. destruct (_ <=? _); reflexivity.
  - destruct (Z.ltb_spec 0 (w_code (today net))); cbn [fx]; [|now left].
    cbn [dataReady set_today getWeatherData_store].
    destruct (positive_member (main_temp (today net))); [right; auto | now left].
  - left. destruct (0 <? f_code (forecast net)); [|reflexivity].
    destruct (tomorrow_entry (forecast net)); [reflexivity|].
    unfold getTomorrowTemps.
    destruct (0 <? _); [|reflexivity]. destruct (find _ _); reflexivity.
Qed.

(** X15.  [dataReady] is never cleared once it is set, and it becomes set
    only by a statement of the task whose current-weather request had a
    positive status and a positive temperature. *)
Theorem dataReady_is_set_once_by_a_positive_temperature
    (w : World) (es : list Event) :
  (dataReady (fx w) = true -> dataReady (fx (run w es)) = true) /\
  (dataReady (fx w) = false -> dataReady (fx (run w es)) = true ->
   exists self cfg net,
     In (TaskStep self cfg net) es /\ 0 < w_code (today net) /\
     exists t, main_temp (today net) = Some t /\ (0 < t)%Q).
Proof.
  revert w. induction es as [|e es IH]; intros w.
  - cbn. split; [auto | congruence].
  - cbn [run fold_left].
    change (fold_left step es ?w0) with (run w0 es).
    destruct (IH (step w e)) as [IHs IHo]. destruct e as [now wifi timing cfg|self cfg net];
      cbn [step] in *.
    + rewrite weather_Draw_fields in IHs, IHo. split; [exact IHs|].
      intros Hf Ht. destruct (IHo Hf Ht) as (self & cfg' & net & Hin & Hrest).
      exists self, cfg', net. split; [now right | exact Hrest].
    + destruct (weather_run_task_dataReady self cfg net w) as [Heq|(Hr & Hc & Hp)].
      * rewrite Heq in IHs, IHo. split; [exact IHs|].
        intros Hf Ht. destruct (IHo Hf Ht) as (self' & cfg' & net' & Hin & Hrest).
        exists self', cfg', net'. split; [now right | exact Hrest].
      * split; [intros _; now apply IHs|]. intros _ _.
        exists self, cfg, net. split; [now left|]. split; [exact Hc|].
        unfold positive_member in Hp. destruct (main_temp (today net)) as [t|];
          [|discriminate].
        exists t. split; [reflexivity|]. now destruct (Qlt_le_dec 0 t).
Qed.

Lemma weather_task_advance (h : nat) cfg net (w : World) (t : Task) :
  tasks w !! h = Some t ->
  (forall task, t <> Exiting task) ->
  let w' := run_task h cfg net w in
  fx w' = (task_step cfg net t (fx w)).1 /\
  tasks w' !! h = Some (task_step cfg net t (fx w)).2 /\
  delete h (tasks w') = delete h (tasks w).
Proof.
  intros Ht Hne w'. subst w'. unfold run_task. rewrite Ht.
  destruct (task_step cfg net t (fx w)) as [s' t'] eqn:E.
  destruct t as [| |pszName|ok| | | | |task]; cbn [fx tasks fst snd];
    try (split; [reflexivity|]; split;
         [apply lookup_insert_eq | apply delete_insert_eq]).
  now destruct (Hne task).
Qed.

Lemma weather_task_exit (h : nat) cfg net (w : World) (task : option nat) :
  tasks w !! h = Some (Exiting task) ->
  let w' := run_task h cfg net w in
  fx w' = fx w /\ tasks w' = vTaskDelete h task (tasks w).
Proof. intros Ht w'. subst w'. unfold run_task. rewrite Ht. split; reflexivity. Qed.

(** The steps of the requests leave the handle and the time of the last
    update alone. *)
Lemma weather_requests_keep_the_handle cfg net (t : Task) (s : PatternWeather) :
  (4 < steps_left t)%nat ->
  weatherTask (task_step cfg net t s).1 = weatherTask s /\
  latestUpdate (task_step cfg net t s).1 = latestUpdate s /\
  (4 <= steps_left (task_step cfg net t s).2 < steps_left t)%nat.
Proof.
  destruct t as [| |pszName|[|]| | | | |task]; cbn [steps_left task_step];
    intros Hleft; try lia.
  - destruct (updateCoordinates_frame cfg (geo net) s) as (_ & Ht & Hl & _).
    cbn [fst snd steps_left]. repeat split; auto; lia.
  - destruct (0 <? w_code (today net)); cbn [fst snd steps_left];
      repeat split; auto; lia.
  - cbn [fst snd steps_left]. repeat split; auto; lia.
  - destruct (0 <? f_code (forecast net)); [|cbn; repeat split; auto; lia].
    destruct (tomorrow_entry (forecast net));
      [cbn [fst snd steps_left]; repeat split; auto; lia|].
    destruct (getTomorrowTemps_frame cfg (forecast net) s) as (_ & Ht & Hl & _).
    cbn [fst snd steps_left]. repeat split; auto; lia.
  - cbn [fst snd steps_left]. repeat split; auto; lia.
  - cbn [fst snd steps_left]. repeat split; auto; lia.
Qed.

Lemma weather_task_moves_on (h : nat) cfg net (w0 w : World) (t : Task) :
  on_its_way h w0 w t ->
  (exists t', on_its_way h w0 (run_task h cfg net w) t' /\
              (steps_left t' < steps_left t)%nat) \/
  at_its_end h w0 (run_task h cfg net w).
Proof.
  intros (Ht & Hd & Hl & Hphase).
  destruct (decide (4 < steps_left t)%nat) as [Hreq|Hlate].
  - (* inside the requests *)
    left.
    assert (forall task, t <> Exiting task) as Hne
      by (intros task ->; cbn in Hreq; lia).
    assert (weatherTask (fx w) = Some h) as Hhandle
      by (destruct t; cbn in Hreq; try lia; exact Hphase).
    destruct (weather_task_advance h cfg net w t Ht Hne) as (Hf & Hp & Hd').
    destruct (weather_requests_keep_the_handle cfg net t (fx w) Hreq)
      as (Hk & Hu & Hrank).
    exists (task_step cfg net t (fx w)).2.
    split; [|lia]. split; [exact Hp|]. split; [congruence|].
    split; [congruence|].
    assert (weatherTask (fx (run_task h cfg net w)) = Some h) as Hhandle'
      by congruence.
    destruct (task_step cfg net t (fx w)).2; cbn in Hrank; try lia;
      exact Hhandle'.
  - destruct t as [| |pszName|ok| | |task|task|task]; cbn in Hlate; try lia.
    + (* Finishing *)
      left. destruct (weather_task_advance h cfg net w Finishing Ht
                        ltac:(discriminate)) as (Hf & Hp & Hd').
      cbn [task_step fst snd] in Hf, Hp.
      exists (HoldingHandle (weatherTask (fx w))). cbn [steps_left].
      split; [|lia]. split; [exact Hp|]. split; [congruence|].
      split; [congruence | exact Hphase].
    + (* HoldingHandle *)
      left. destruct (weather_task_advance h cfg net w _ Ht
                        ltac:(discriminate)) as (Hf & Hp & Hd').
      cbn [task_step fst snd] in Hf, Hp.
      exists (HandleCleared task). cbn [steps_left].
      split; [|lia]. split; [exact Hp|]. split; [congruence|].
      rewrite Hf. cbn [set_task latestUpdate weatherTask]. auto.
    + (* HandleCleared *)
      left. destruct (weather_task_advance h cfg net w _ Ht
                        ltac:(discriminate)) as (Hf & Hp & Hd').
      cbn [task_step fst snd] in Hf, Hp. destruct Hphase as [Htask Hnone].
      exists (Exiting task). cbn [steps_left].
      split; [|lia]. split; [exact Hp|]. split; [congruence|].
      rewrite Hf. cbn [set_task latestUpdate weatherTask updateInProgress]. auto.
    + (* Exiting *)
      right. destruct (weather_task_exit h cfg net w task Ht) as (Hf & Hts).
      destruct Hphase as (-> & Hnone & Hidle). cbn [vTaskDelete] in Hts.
      unfold at_its_end. rewrite Hts, Hf. auto.
Qed.

Lemma weather_task_stays_at_its_end (h : nat) (w0 w : World)
    (steps : list (DeviceConfig * Net)) :
  at_its_end h w0 w ->
  run w ((fun cn => TaskStep h cn.1 cn.2) <$> steps) = w.
Proof.
  intros (Hts & _). induction steps as [|cn steps IH]; [reflexivity|].
  cbn [fmap list_fmap run fold_left step].
  assert (run_task h cn.1 cn.2 w = w) as ->; [|exact IH].
  unfold run_task. now rewrite Hts, lookup_delete_eq.
Qed.

Lemma weather_task_reaches_its_end (h : nat) (w0 : World)
    (steps : list (DeviceConfig * Net)) :
  forall (w : World) (t : Task),
    on_its_way h w0 w t ->
    (steps_left t <= length steps)%nat ->
    at_its_end h w0 (run w ((fun cn => TaskStep h cn.1 cn.2) <$> steps)).
Proof.
  induction steps as [|cn steps IH]; intros w t Hway Hlen.
  - destruct t; cbn in Hlen; lia.
  - cbn [fmap list_fmap run fold_left step].
    destruct (weather_task_moves_on h cn.1 cn.2 w0 w t Hway)
      as [(t' & Hway' & Hless)|Hend].
    + apply (IH _ t' Hway'). cbn [length] in Hlen. lia.
    + change (fold_left step ?es ?w1) with (run w1 es).
      now rewrite (weather_task_stays_at_its_end h w0 _ steps Hend).
Qed.

(** X16.  A weather task that has been created runs to its end in nine
    steps at most: after nine or more of its steps, with no other event in
    between, it is gone from the task table, has cleared [updateInProgress]
    and the task handle and has left [latestUpdate] alone, whatever the
    configuration and the network are at each step. *)
Theorem weather_task_runs_to_its_end (h : nat) (w : World)
    (steps : list (DeviceConfig * Net)) :
  tasks w !! h = Some Created ->
  weatherTask (fx w) = Some h ->
  (9 <= length steps)%nat ->
  let w' := run w ((fun cn => TaskStep h cn.1 cn.2) <$> steps) in
  tasks w' = delete h (tasks w) /\
  updateInProgress (fx w') = false /\
  weatherTask (fx w') = None /\
  latestUpdate (fx w') = latestUpdate (fx w).
Proof.
  intros Hh Htask Hlen w'. subst w'.
  apply (weather_task_reaches_its_end h w steps w Created); [|exact Hlen].
  split; [exact Hh|]. split; [reflexivity|]. split; [reflexivity | exact Htask].
Qed.

End WeatherRuns.

Section WeatherRunWitnesses.
Import Weather.

Lemma dataReady_is_set_once_by_a_positive_temperature_witness :
  let es := Frame 1715100000 true true redmond
            :: replicate 2 (TaskStep 0 redmond network) in
  let w := run (H := panel64x32) boot es in
  dataReady (fx w) = true /\
  dataReady (fx (run (H := panel64x32) w
                   [Frame 1715100700 true true redmond;
                    TaskStep 0 redmond
                      {| geo := geo network; today := unauthorized;
                         forecast := forecast network |}])) = true /\
  exists self cfg net,
    In (TaskStep self cfg net) es /\ 0 < w_code (today net) /\
    exists t, main_temp (today net) = Some t /\ (0 < t)%Q.
Proof.
  intros es w.
  assert (dataReady (fx w) = true) as Hready by (vm_compute; reflexivity).
  split; [exact Hready|]. split.
  - apply (dataReady_is_set_once_by_a_positive_temperature (H := panel64x32) w).
    exact Hready.
  - apply (dataReady_is_set_once_by_a_positive_temperature (H := panel64x32)
             boot es); [reflexivity | exact Hready].
Defined.

Lemma weather_task_runs_to_its_end_witness :
  let w := Draw (H := panel64x32) 1715100000 true true redmond boot in
  let w' := run (H := panel64x32) w
              ((fun cn => TaskStep 0 cn.1 cn.2)
               <$> replicate 9 (redmond, network)) in
  tasks w' = ∅ /\ updateInProgress (fx w') = false /\
  weatherTask (fx w') = None.
Proof.
  intros w w'.
  destruct (weather_task_runs_to_its_end (H := panel64x32) 0 w
              (replicate 9 (redmond, network)))
    as (Ht & Hu & Hk & _);
    [vm_compute; reflexivity | reflexivity | vm_compute; lia |].
  split; [|split; [exact Hu | exact Hk]].
  transitivity (delete 0%nat (tasks w)); [exact Ht | vm_compute; reflexivity].
Defined.

End WeatherRunWitnesses.

(** ** Icon numbers and the icon table *)

Section WeatherValues.
Import Weather.

Lemma digit_of_char (d : Z) :
  0 <= d <= 9 -> digit_of (ascii_of_N (Z.to_N (48 + d))) = Some d.
Proof.
  intros Hd.
  assert (d = 0 \/ d = 1 \/ d = 2 \/ d = 3 \/ d = 4 \/ d = 5 \/ d = 6 \/ d = 7
          \/ d = 8 \/ d = 9) as Hcases by lia.
  repeat (destruct Hcases as [->|Hcases]; [reflexivity|]). now subst.
Qed.

Lemma isspace_digit_char (d : Z) :
  0 <= d <= 9 -> isspace (ascii_of_N (Z.to_N (48 + d))) = false.
Proof.
  intros Hd.
  assert (d = 0 \/ d = 1 \/ d = 2 \/ d = 3 \/ d = 4 \/ d = 5 \/ d = 6 \/ d = 7
          \/ d = 8 \/ d = 9) as Hcases by lia.
  repeat (destruct Hcases as [->|Hcases]; [reflexivity|]). now subst.
Qed.

Lemma digits_number (ds : list Z) (rest : string) (acc : Z) :
  Forall (fun d => 0 <= d <= 9) ds ->
  not_a_digit rest ->
  digits (number ds +:+ rest) acc = fold_left (fun a d => 10 * a + d) ds acc.
Proof.
  intros Hds Hrest. revert acc.
  induction Hds as [|d ds Hd Hds IH]; intros acc.
  - change (digits rest acc = acc). destruct rest as [|c rest]; [reflexivity|].
    cbn [digits]. unfold not_a_digit in Hrest. now rewrite Hrest.
  - cbn [number list_fmap fmap string_of_list_ascii fold_left].
    change (String ?c ?s +:+ rest) with (String c (s +:+ rest)).
    cbn [digits]. rewrite digit_of_char by exact Hd. apply IH.
Qed.

Lemma skip_space_blanks (blanks : list ascii) (s : string) :
  Forall (fun c => isspace c = true) blanks ->
  skip_space (string_of_list_ascii blanks +:+ s) = skip_space s.
Proof.
  induction 1 as [|c blanks Hc Hb IH]; [reflexivity|].
  cbn [string_of_list_ascii].
  change (String c ?s0 +:+ s) with (String c (s0 +:+ s)).
  cbn [skip_space]. now rewrite Hc.
Qed.

Lemma saturate_nonneg (z : Z) : 0 <= z -> saturate z = Z.min LONG_MAX z.
Proof. unfold saturate, LONG_MIN, LONG_MAX. lia. Qed.

Lemma saturate_nonpos (z : Z) : z <= 0 -> saturate z = Z.max LONG_MIN z.
Proof. unfold saturate, LONG_MIN, LONG_MAX. lia. Qed.

(** X18.  [toInt], as the icon fields and the subscriber counts are read
    with, gives the number at the head of the text, held to the range of a
    32-bit [long]: after any blanks, a non-empty run of digits followed by
    a text that does not start with a digit gives the decimal value of the
    run, or [LONG_MAX] if that is less; with a minus sign before the run
    it gives the negated value, or [LONG_MIN] if that is greater. *)
Theorem toInt_reads_the_leading_number
    (blanks : list ascii) (ds : list Z) (rest : string) :
  Forall (fun c => isspace c = true) blanks ->
  Forall (fun d => 0 <= d <= 9) ds ->
  ds <> [] ->
  not_a_digit rest ->
  let value := fold_left (fun a d => 10 * a + d) ds 0 in
  toInt (string_of_list_ascii blanks +:+ number ds +:+ rest)
  = Z.min LONG_MAX value /\
  toInt (string_of_list_ascii blanks +:+ "-" +:+ number ds +:+ rest)
  = Z.max LONG_MIN (- value) /\
  0 <= value.
Proof.
  intros Hb Hds Hne Hrest value.
  assert (forall acc, 0 <= acc ->
            0 <= fold_left (fun a d => 10 * a + d) ds acc) as Hpos.
  { clear Hne value. induction Hds as [|d ds' Hd _ IH]; intros acc Hacc;
      [exact Hacc|].
    cbn [fold_left]. apply IH. lia. }
  assert (0 <= value) as Hvalue by (apply Hpos; lia).
  unfold toInt. rewrite !skip_space_blanks by exact Hb.
  split; [|split; [|exact Hvalue]].
  - rewrite <- saturate_nonneg by exact Hvalue. f_equal. subst value.
    destruct ds as [|d ds']; [contradiction|]. inversion Hds as [|? ? Hd Hds']; subst.
    assert (skip_space (number (d :: ds') +:+ rest) = number (d :: ds') +:+ rest) as ->.
    { cbn [number list_fmap fmap string_of_list_ascii].
      change (String ?c ?s +:+ rest) with (String c (s +:+ rest)).
      cbn [skip_space]. now rewrite isspace_digit_char. }
    rewrite <- (digits_number (d :: ds') rest 0 Hds Hrest).
    cbn [number list_fmap fmap string_of_list_ascii].
    change (String ?c ?s +:+ rest) with (String c (s +:+ rest)).
    assert (d = 0 \/ d = 1 \/ d = 2 \/ d = 3 \/ d = 4 \/ d = 5 \/ d = 6 \/ d = 7
            \/ d = 8 \/ d = 9) as Hcases by lia.
    repeat (destruct Hcases as [->|Hcases]; [reflexivity|]). now subst.
  - rewrite <- saturate_nonpos by lia. f_equal. subst value.
    change ("-" +:+ number ds +:+ rest) with (String "-" (number ds +:+ rest)).
    cbn [skip_space isspace]. cbn. f_equal. now apply digits_number.
Qed.

End WeatherValues.

Lemma toInt_reads_the_leading_number_witness :
  Weather.toInt " 3000000000" = 2147483647 /\
  Weather.toInt " -10n" = -10.
Proof.
  destruct (toInt_reads_the_leading_number [" "%char]
              [3; 0; 0; 0; 0; 0; 0; 0; 0; 0] EmptyString)
    as (Hplus & _);
    [repeat constructor | repeat constructor; lia | discriminate
     | reflexivity |].
  destruct (toInt_reads_the_leading_number [" "%char] [1; 0] "n")
    as (_ & Hminus & _);
    [repeat constructor | repeat constructor; lia | discriminate
     | reflexivity |].
  split; [exact Hplus | exact Hminus].
Defined.

(** X19.  What each icon number draws, with the table as it is compiled
    (the missing comma merges two entries, so that the entries after it sit
    one place lower than their comments say): 1 to 5 draw the clear sky,
    few clouds, scattered clouds, broken clouds and test cloud files, 8 the
    shower rain file, 9 the rain file, 10 the thunderstorm file and 12 the
    snow file; every other number, 13 included, draws nothing. *)
Theorem icons_follow_the_table_as_compiled (x icon : Z) :
  Weather.draw_icon x (Weather.checked_icon icon)
  = Some match icon with
         | 1 => [Weather.DrawJpg x 10 "/bmp/clearsky.jpg"]
         | 2 => [Weather.DrawJpg x 10 "/bmp/fewclouds.jpg"]
         | 3 => [Weather.DrawJpg x 10 "/bmp/scatteredclouds.jpg"]
         | 4 => [Weather.DrawJpg x 10 "/bmp/brokenclouds.jpg"]
         | 5 => [Weather.DrawJpg x 10 "/bmp/testcloud.jpg"]
         | 8 => [Weather.DrawJpg x 10 "/bmp/showerrain.jpg"]
         | 9 => [Weather.DrawJpg x 10 "/bmp/rain.jpg"]
         | 10 => [Weather.DrawJpg x 10 "/bmp/thunderstorm.jpg"]
         | 12 => [Weather.DrawJpg x 10 "/bmp/snow.jpg"]
         | _ => []
         end.
Proof.
  destruct (Z.lt_ge_cases icon 1) as [Hlo|Hlo].
  { assert (Weather.checked_icon icon = -1) as ->.
    { unfold Weather.checked_icon. now rewrite (proj2 (Z.ltb_lt icon 1) Hlo). }
    destruct icon as [|p|p]; try lia; reflexivity. }
  destruct (Z.lt_ge_cases icon 13) as [Hhi|Hhi].
  - assert (icon = 1 \/ icon = 2 \/ icon = 3 \/ icon = 4 \/ icon = 5 \/
            icon = 6 \/ icon = 7 \/ icon = 8 \/ icon = 9 \/ icon = 10 \/
            icon = 11 \/ icon = 12) as Hcases by lia.
    repeat (destruct Hcases as [->|Hcases]; [reflexivity|]).
    rewrite Hcases. reflexivity.
  - assert (Weather.checked_icon icon = -1) as ->.
    { unfold Weather.checked_icon.
      change (Weather.ARRAYSIZE Weather.pszWeatherIcons) with 13.
      rewrite (proj2 (Z.leb_le 13 icon) Hhi). now rewrite orb_true_r. }
    destruct icon as [|p|p]; try lia.
    do 4 (destruct p as [p|p|]; try lia; try reflexivity).
Qed.

(** * The subscriber count and the clock *)

(** ** The subscriber count *)

Section SubscribersFacts.
Import Subscribers.
Variable urlEncode : string -> string.
Variable SUBCHECK_INTERVAL : Z.

Lemma UpdateGuid_guid (configGuid : string) (s : PatternSubscribers) :
  strChannelGuid (UpdateGuid configGuid s).2 = configGuid.
Proof.
  unfold UpdateGuid.
  destruct (String.eqb_spec (strChannelGuid s) configGuid) as [Heq|Hne];
    [exact Heq | reflexivity].
Qed.

(** X20.  [UpdateGuid] returns true exactly when the configured channel
    differs from the recorded one; afterwards the recorded channel is the
    configured one, and a second call returns false and changes nothing; a
    change clears [succeededBefore]; the counts, the time of the last check
    and the client are never touched. *)
Theorem UpdateGuid_records_a_change_once
    (configGuid : string) (s : PatternSubscribers) :
  let result := UpdateGuid configGuid s in
  (result.1 = true <-> strChannelGuid s <> configGuid) /\
  strChannelGuid result.2 = configGuid /\
  UpdateGuid configGuid result.2 = (false, result.2) /\
  (result.1 = true -> succeededBefore result.2 = false) /\
  (result.1 = false -> result.2 = s) /\
  (subscribers result.2, views result.2, millisLastCheck result.2, sight result.2)
  = (subscribers s, views s, millisLastCheck s, sight s).
Proof.
  unfold UpdateGuid.
  destruct (String.eqb_spec (strChannelGuid s) configGuid) as [Heq|Hne];
    cbn [fst snd strChannelGuid].
  - rewrite <- Heq at 3. rewrite String.eqb_refl.
    repeat split; try discriminate; congruence.
  - rewrite String.eqb_refl. repeat split; try discriminate; auto.
Qed.

Lemma turn_sight_ok (t : Turn) (s : PatternSubscribers) :
  sight_ok urlEncode s ->
  sight_ok urlEncode (turn urlEncode SUBCHECK_INTERVAL t s).1 /\
  (forall channel,
     (turn urlEncode SUBCHECK_INTERVAL t s).2 = Some channel ->
     channel = urlEncode (configChannelGuid t)).
Proof.
  intros Hs. unfold turn, UpdateGuid.
  destruct (String.eqb_spec (strChannelGuid s) (configChannelGuid t)) as [Heq|Hne].
  - destruct (check_due _ _ _ s); cbn [fst snd]; [|split; [exact Hs | discriminate]].
    unfold UpdateSubscribers. rewrite <- Heq.
    destruct (sight s) as [c|] eqn:Ec; cbn [fst snd].
    + rewrite (Hs c Ec).
      split; [|now intros ? [= <-]].
      destruct (answer t); intros c' [= <-]; reflexivity.
    + split; [|now intros ? [= <-]].
      destruct (answer t); intros c' [= <-]; reflexivity.
  - unfold check_due. cbn [orb]. unfold UpdateSubscribers.
    cbn [sight strChannelGuid fst snd].
    assert (forall o : option string,
              match o with Some _ | None => urlEncode (configChannelGuid t) end
              = urlEncode (configChannelGuid t)) as Hm by (now intros []).
    rewrite Hm. split; [|now intros ? [= <-]].
    destruct (answer t); intros c' [= <-]; reflexivity.
Qed.

Lemma turns_sight_ok (ts : list Turn) (s : PatternSubscribers) :
  sight_ok urlEncode s -> sight_ok urlEncode (turns urlEncode SUBCHECK_INTERVAL ts s).
Proof.
  unfold turns. revert s.
  induction ts as [|t ts IH]; intros s Hs; [exact Hs|].
  cbn [fold_left]. apply IH. now apply turn_sight_ok.
Qed.

(** X21.  In every state the task reaches from the constructed object, a
    request goes out for the channel that is configured at that turn, never
    for an earlier one, and the channel on record is then the configured
    one. *)
Theorem requests_go_out_for_the_configured_channel
    (millis0 : Z) (ts : list Turn) (t : Turn) (channel : string) :
  let s := turns urlEncode SUBCHECK_INTERVAL ts (PatternSubscribers_new millis0) in
  (turn urlEncode SUBCHECK_INTERVAL t s).2 = Some channel ->
  channel = urlEncode (configChannelGuid t) /\
  strChannelGuid (turn urlEncode SUBCHECK_INTERVAL t s).1 = configChannelGuid t.
Proof.
  intros s Hreq.
  assert (sight_ok urlEncode s) as Hs by (apply turns_sight_ok; intros c [=]).
  split; [now apply (turn_sight_ok t s Hs)|].
  clear Hreq. unfold turn.
  pose proof (UpdateGuid_guid (configChannelGuid t) s) as Hguid.
  destruct (UpdateGuid (configChannelGuid t) s) as [g s1].
  cbn [snd] in Hguid.
  destruct (check_due _ _ _ s1); [|exact Hguid].
  unfold UpdateSubscribers. destruct (answer t); exact Hguid.
Qed.

(** X22.  A check that fails keeps the subscriber and view counts that are
    shown, and does not set [succeededBefore]. *)
Theorem failed_check_keeps_the_counts (t : Turn) (s : PatternSubscribers) :
  answer t = None ->
  let s' := (turn urlEncode SUBCHECK_INTERVAL t s).1 in
  subscribers s' = subscribers s /\ views s' = views s /\
  (succeededBefore s' = true -> succeededBefore s = true).
Proof.
  intros Hfail. unfold turn, UpdateGuid.
  destruct (String.eqb (strChannelGuid s) (configChannelGuid t));
    match goal with |- context [check_due ?i ?g ?n ?x] =>
      destruct (check_due i g n x) end;
    unfold UpdateSubscribers; rewrite ?Hfail; cbn;
    repeat split; auto; discriminate.
Qed.

(** X23.  A turn of the task loop that makes no request changes nothing; it
    happens only when the configured channel is the recorded one and the
    last check was timed at a [millis()] other than 0. *)
Theorem turn_without_request_changes_nothing (t : Turn) (s : PatternSubscribers) :
  (turn urlEncode SUBCHECK_INTERVAL t s).2 = None ->
  (turn urlEncode SUBCHECK_INTERVAL t s).1 = s /\
  strChannelGuid s = configChannelGuid t /\ millisLastCheck s <> 0.
Proof.
  unfold turn, UpdateGuid.
  destruct (String.eqb_spec (strChannelGuid s) (configChannelGuid t)) as [Heq|Hne].
  - destruct (check_due _ _ _ s) eqn:Hdue; cbn [fst snd]; [discriminate|].
    intros _. repeat split; [exact Heq|].
    unfold check_due in Hdue. intros H0. rewrite H0 in Hdue. discriminate.
  - unfold check_due. cbn [orb fst snd]. discriminate.
Qed.

(** X24.  The elapsed time is right across the wrap-around of [millis()]:
    when d milliseconds, less than 2^32, have passed since the last check,
    the unsigned difference is d; with the channel unchanged a check is then
    due exactly when the last check was timed at 0, or no check has
    succeeded and d exceeds 20000, or d exceeds SUBCHECK_INTERVAL. *)
Theorem check_due_measures_elapsed_time_across_wrap
    (s : PatternSubscribers) (d : Z) :
  0 <= millisLastCheck s < ULONG_RANGE -> 0 <= d < ULONG_RANGE ->
  let now := (millisLastCheck s + d) mod ULONG_RANGE in
  millisSince now (millisLastCheck s) = d /\
  check_due SUBCHECK_INTERVAL false now s
  = (millisLastCheck s =? 0)
    || (negb (succeededBefore s) && (SUB_CHECK_ERROR_INTERVAL <? d))
    || (SUBCHECK_INTERVAL <? d).
Proof.
  intros Hlast Hd now.
  assert (millisSince now (millisLastCheck s) = d) as Hsince.
  { unfold millisSince, now. rewrite Zminus_mod_idemp_l.
    replace (millisLastCheck s + d - millisLastCheck s) with d by lia.
    now apply Z.mod_small. }
  split; [exact Hsince|].
  unfold check_due. rewrite Hsince. reflexivity.
Qed.

End SubscribersFacts.

Lemma UpdateGuid_records_a_change_once_witness :
  let s := Subscribers.PatternSubscribers_new 0 in
  let result := Subscribers.UpdateGuid "9558daa1-eae8-482f-8066-17fa787bc0e4" s in
  result.1 = true /\ Subscribers.succeededBefore result.2 = false.
Proof.
  intros s result.
  destruct (UpdateGuid_records_a_change_once
              "9558daa1-eae8-482f-8066-17fa787bc0e4" s)
    as (Hchanged & _ & _ & Hreset & _).
  assert (result.1 = true) as Ht by (apply Hchanged; discriminate).
  split; [exact Ht | now apply Hreset].
Defined.

Lemma requests_go_out_for_the_configured_channel_witness :
  let s := Subscribers.turns id 60000 [first_turn]
             (Subscribers.PatternSubscribers_new 0) in
  Subscribers.strChannelGuid (Subscribers.turn id 60000 failed_turn s).1
  = "9558daa1-eae8-482f-8066-17fa787bc0e4"%string.
Proof.
  intros s.
  apply (requests_go_out_for_the_configured_channel id 60000 0 [first_turn]
           failed_turn "9558daa1-eae8-482f-8066-17fa787bc0e4").
  vm_compute. reflexivity.
Defined.

Lemma failed_check_keeps_the_counts_witness :
  let s := Subscribers.turns id 60000 [first_turn]
             (Subscribers.PatternSubscribers_new 0) in
  Subscribers.subscribers (Subscribers.turn id 60000 failed_turn s).1 = 123456.
Proof.
  intros s.
  destruct (failed_check_keeps_the_counts id 60000 failed_turn s) as (Hs & _).
  - reflexivity.
  - rewrite Hs. vm_compute. reflexivity.
Defined.

Lemma turn_without_request_changes_nothing_witness :
  let s := Subscribers.turns id 60000 [first_turn]
             (Subscribers.PatternSubscribers_new 0) in
  (Subscribers.turn id 60000 idle_turn s).1 = s.
Proof.
  intros s.
  apply (turn_without_request_changes_nothing id 60000 idle_turn s).
  vm_compute. reflexivity.
Defined.

Lemma check_due_measures_elapsed_time_across_wrap_witness :
  let s := {| Subscribers.subscribers := 123456; Subscribers.views := 0;
              Subscribers.strChannelGuid := EmptyString;
              Subscribers.millisLastCheck := 4294960000;
              Subscribers.succeededBefore := true;
              Subscribers.sight := None |} in
  Subscribers.millisSince 52704 4294960000 = 60000 /\
  Subscribers.check_due 60000 false 52704 s = false.
Proof.
  intros s.
  destruct (check_due_measures_elapsed_time_across_wrap 60000 s 60000)
    as (Hsince & Hdue).
  - vm_compute. split; [discriminate | reflexivity].
  - vm_compute. split; [discriminate | reflexivity].
  - split; [exact Hsince | exact Hdue].
Defined.

Section SubscribersDraw.
Import Subscribers.

Lemma center_loop_small (z x : Z) : Z.abs z < 10 -> center_loop z x = x.
Proof.
  intros Hz. rewrite center_loop_equation_1.
  destruct (Z.eq_dec (Z.quot z 10) 0) as [He|Hne]; [reflexivity|].
  exfalso. apply Hne. apply Z.quot_small_iff; [lia|]. exact Hz.
Qed.

Lemma center_loop_step (z x : Z) :
  10 <= Z.abs z -> center_loop z x = center_loop (Z.quot z 10) (x - 3).
Proof.
  intros Hz. rewrite center_loop_equation_1.
  destruct (Z.eq_dec (Z.quot z 10) 0) as [He|Hne]; [|reflexivity].
  pose proof (proj1 (Z.quot_small_iff z 10 ltac:(lia)) He) as Hs.
  change (Z.abs 10) with 10 in Hs. lia.
Qed.

Lemma center_loop_digits (k : nat) (z x : Z) :
  10 ^ Z.of_nat k <= Z.abs z < 10 ^ (Z.of_nat k + 1) ->
  center_loop z x = x - 3 * Z.of_nat k.
Proof.
  revert z x. induction k as [|k IH]; intros z x Hz.
  - rewrite center_loop_small; [lia|]. cbn in Hz. lia.
  - rewrite Nat2Z.inj_succ in *. unfold Z.succ in *.
    rewrite !Z.pow_add_r in Hz by lia. change (10 ^ 1) with 10 in Hz.
    assert (0 < 10 ^ Z.of_nat k) by (apply Z.pow_pos_nonneg; lia).
    rewrite center_loop_step by nia.
    rewrite IH; [lia|].
    rewrite <- (Z.quot_abs z 10) by lia. change (Z.abs 10) with 10.
    rewrite Z.pow_add_r by lia. change (10 ^ 1) with 10.
    rewrite Z.quot_div_nonneg by lia.
    split.
    + apply Z.div_le_lower_bound; lia.
    + apply Z.div_lt_upper_bound; lia.
Qed.

Lemma center_loop_count (k : nat) (z x : Z) :
  10 ^ Z.of_nat k <= Z.max 1 (Z.abs z) < 10 ^ (Z.of_nat k + 1) ->
  center_loop z x = x - 3 * Z.of_nat k.
Proof.
  intros Hz. destruct k as [|k].
  - rewrite center_loop_small; [lia|]. cbn in Hz. lia.
  - apply center_loop_digits.
    assert (10 <= 10 ^ Z.of_nat (S k)).
    { rewrite Nat2Z.inj_succ, Z.pow_succ_r by lia.
      assert (0 < 10 ^ Z.of_nat k) by (apply Z.pow_pos_nonneg; lia). lia. }
    lia.
Qed.

(** X25.  The count moves left by three pixels for every digit after the
    first: a count of k + 1 digits is written in white from column
    MATRIX_WIDTH / 2 - 3 - 3 k on row MATRIX_HEIGHT / 2 - 6, over four black
    copies one pixel to the left, to the right, above and below. *)
Theorem count_moves_left_three_pixels_per_digit `{Build}
    (s : PatternSubscribers) (k : nat) :
  10 ^ Z.of_nat k <= Z.max 1 (Z.abs (subscribers s)) < 10 ^ (Z.of_nat k + 1) ->
  let x := Z.quot MATRIX_WIDTH 2 - 3 - 3 * Z.of_nat k in
  let y := Z.quot MATRIX_HEIGHT 2 - 6 in
  let text := pretty (subscribers s) in
  Draw s = [ DrawString (x - 1) y false text; DrawString (x + 1) y false text;
             DrawString x (y - 1) false text; DrawString x (y + 1) false text;
             DrawString x y true text ].
Proof.
  intros Hk x y text. unfold Draw.
  change (Z.quot 6 2) with 3. change (Z.quot 7 2) with 3.
  rewrite (center_loop_count k) by exact Hk.
  replace (Z.quot MATRIX_HEIGHT 2 - 3 - 3) with y by (unfold y; lia).
  reflexivity.
Qed.

End SubscribersDraw.

Lemma count_moves_left_three_pixels_per_digit_witness :
  let s := {| Subscribers.subscribers := 123456; Subscribers.views := 0;
              Subscribers.strChannelGuid := EmptyString;
              Subscribers.millisLastCheck := 0;
              Subscribers.succeededBefore := true;
              Subscribers.sight := None |} in
  last (Subscribers.Draw (H := panel64x32) s)
  = Some (Subscribers.DrawString 14 10 true "123456").
Proof.
  intros s.
  rewrite (count_moves_left_three_pixels_per_digit (H := panel64x32) s 5).
  - reflexivity.
  - cbn. lia.
Defined.

(** ** The clock *)

Section ClockFacts.
Import Clock.
Context `{Build}.
Variables cos8 sin8 sin8_C : Z -> Z.
Variables MATRIX_CENTER_X MATRIX_CENTER_Y : Z.

Lemma float_to_int_near (centre : Z) (v : Q) :
  (- inject_Z half_side <= v <= inject_Z half_side)%Q ->
  near centre (float_to_int (inject_Z centre + v)).
Proof.
  intros [Hlo Hhi]. unfold near.
  rewrite <- (float_to_int_inject (centre - half_side)).
  rewrite <- (float_to_int_inject (centre + half_side)).
  replace (centre - half_side) with (centre + - half_side) by lia.
  rewrite !inject_Z_plus, inject_Z_opp.
  split; apply float_to_int_le; lra.
Qed.

Lemma radius_half_side : (radius == inject_Z half_side - (1 # 2))%Q.
Proof. reflexivity. Qed.

Lemma wave_bounds (wave : Z) :
  0 <= wave <= 255 -> (-128 <= inject_Z (wave - 128) <= 127)%Q.
Proof.
  intros Hw. change (-128)%Q with (inject_Z (-128)).
  change 127%Q with (inject_Z 127).
  rewrite <- !Zle_Qle. lia.
Qed.

Lemma scaled_bound (len q k r : Q) :
  (0 <= r)%Q -> (- r <= len <= r)%Q -> (-128 <= q <= 128)%Q ->
  (- r <= len * q / 128 <= r)%Q.
Proof.
  intros Hr Hlen Hq.
  assert (len * q / 128 == len * q * (1 # 128))%Q as -> by (field).
  split; nra.
Qed.

Lemma tip_near (centre : Z) (len : Q) (wave : Z) :
  3 <= half_side -> 0 <= wave <= 255 ->
  (- radius <= len <= radius)%Q ->
  near centre (tip centre len wave 128) /\
  near centre (tip_up centre len wave 128).
Proof.
  intros Hside Hw Hlen. pose proof (wave_bounds wave Hw) as Hq.
  pose proof radius_half_side as Hr.
  assert (3 <= inject_Z half_side)%Q as Hs
    by (change 3%Q with (inject_Z 3); now rewrite <- Zle_Qle).
  assert (0 <= radius)%Q as Hr0 by lra.
  assert (-128 <= inject_Z (wave - 128) <= 128)%Q as Hq' by lra.
  pose proof (scaled_bound len (inject_Z (wave - 128)) 0 radius Hr0 Hlen Hq')
    as Hb.
  split; unfold tip, tip_up; change (inject_Z 128) with 128%Q.
  - apply float_to_int_near. lra.
  - assert (forall a b : Q, (a - b == a + - b)%Q) as Hm by (intros; ring).
    rewrite (float_to_int_comp _ _ (Hm _ _)).
    apply float_to_int_near. lra.
Qed.

Lemma hour_tip_near (centre : Z) (wave : Z) :
  3 <= half_side -> 0 <= wave <= 255 ->
  near centre (tip centre ((radius - 3) * 3) wave 512).
Proof.
  intros Hside Hw. pose proof (wave_bounds wave Hw) as Hq.
  pose proof radius_half_side as Hr.
  assert (3 <= inject_Z half_side)%Q as Hs
    by (change 3%Q with (inject_Z 3); now rewrite <- Zle_Qle).
  unfold tip. change (inject_Z 512) with 512%Q.
  assert ((radius - 3) * 3 * inject_Z (wave - 128) / 512
          == ((radius - 3) * (3 # 4)) * inject_Z (wave - 128) / 128)%Q as Hre
    by field.
  assert (forall a b c : Q, (b == c -> a + b == a + c)%Q) as Hp
    by (intros a b c ->; reflexivity).
  rewrite (float_to_int_comp _ _ (Hp _ _ _ Hre)).
  assert (0 <= radius)%Q as Hr0 by lra.
  assert (- radius <= (radius - 3) * (3 # 4) <= radius)%Q as Hlen by lra.
  assert (-128 <= inject_Z (wave - 128) <= 128)%Q as Hq' by lra.
  pose proof (scaled_bound ((radius - 3) * (3 # 4)) (inject_Z (wave - 128)) 0
                radius Hr0 Hlen Hq') as Hb.
  apply float_to_int_near. lra.
Qed.

Lemma tick_on_the_face (z : Z) :
  3 <= half_side -> is_byte cos8 -> is_byte sin8_C ->
  on_the_face MATRIX_CENTER_X MATRIX_CENTER_Y (tick cos8 sin8_C MATRIX_CENTER_X MATRIX_CENTER_Y z).
Proof.
  intros Hside Hcos Hsin. unfold tick, on_the_face.
  pose proof radius_half_side as Hr.
  assert (3 <= inject_Z half_side)%Q as Hs
    by (change 3%Q with (inject_Z 3); now rewrite <- Zle_Qle).
  repeat split; apply tip_near; auto; lra.
Qed.

Lemma tick_loop_lt (z z' : Z) :
  z < 12 * 21 -> z' = z + 21 ->
  tick_loop cos8 sin8_C MATRIX_CENTER_X MATRIX_CENTER_Y z
  = tick cos8 sin8_C MATRIX_CENTER_X MATRIX_CENTER_Y z
    :: tick_loop cos8 sin8_C MATRIX_CENTER_X MATRIX_CENTER_Y z'.
Proof.
  intros Hz ->. rewrite tick_loop_equation_1.
  destruct (Z_lt_dec z (12 * 21)) as [Hlt|Hge]; [reflexivity | contradiction].
Qed.

Lemma tick_loop_ge (z : Z) :
  12 * 21 <= z -> tick_loop cos8 sin8_C MATRIX_CENTER_X MATRIX_CENTER_Y z = [].
Proof.
  intros Hz. rewrite tick_loop_equation_1.
  destruct (Z_lt_dec z (12 * 21)) as [Hlt|Hge]; [lia | reflexivity].
Qed.

Lemma tick_loop_on_the_face (z : Z) :
  3 <= half_side -> is_byte cos8 -> is_byte sin8_C ->
  Forall (on_the_face MATRIX_CENTER_X MATRIX_CENTER_Y) (tick_loop cos8 sin8_C MATRIX_CENTER_X MATRIX_CENTER_Y z).
Proof.
  intros Hside Hcos Hsin.
  funelim (tick_loop cos8 sin8_C MATRIX_CENTER_X MATRIX_CENTER_Y z).
  - constructor; [now apply tick_on_the_face | auto].
  - constructor.
Qed.

Lemma near_centre (centre : Z) : 3 <= half_side -> near centre centre.
Proof. unfold near. lia. Qed.

(** X26.  The lines of the clock stay on the face: on a panel whose shorter
    side is at least 6, with [cos8], [sin8] and [sin8_C] returning bytes,
    both ends of the three hands and of every tick lie within half the
    shorter side of the centre, in each coordinate, whatever the time. *)
Theorem clock_lines_stay_on_the_face (localTime : tm) :
  6 <= Z.min MATRIX_WIDTH MATRIX_HEIGHT ->
  is_byte cos8 -> is_byte sin8 -> is_byte sin8_C ->
  Forall (on_the_face MATRIX_CENTER_X MATRIX_CENTER_Y)
    (Draw cos8 sin8 sin8_C MATRIX_CENTER_X MATRIX_CENTER_Y localTime).
Proof.
  intros Hmin Hcos Hsin HsinC.
  assert (3 <= half_side) as Hside.
  { unfold half_side. apply Z.quot_le_lower_bound; lia. }
  pose proof radius_half_side as Hr.
  assert (3 <= inject_Z half_side)%Q as Hs
    by (change 3%Q with (inject_Z 3); now rewrite <- Zle_Qle).
  assert (- radius <= radius <= radius)%Q as Hlen by lra.
  assert (forall x y colour,
            near MATRIX_CENTER_X x -> near MATRIX_CENTER_Y y ->
            on_the_face MATRIX_CENTER_X MATRIX_CENTER_Y
              (DrawLine MATRIX_CENTER_X MATRIX_CENTER_Y x y colour)) as Hhand.
  { intros x y colour Hx Hy. cbn [on_the_face].
    split; [now apply near_centre|]. split; [now apply near_centre|].
    split; [exact Hx | exact Hy]. }
  unfold Draw. apply Forall_app. split; [|now apply tick_loop_on_the_face].
  constructor; [exact I|]. constructor; [exact I|].
  constructor; [apply Hhand; apply hour_tip_near; auto|].
  constructor.
  { apply Hhand.
    - exact (proj1 (tip_near MATRIX_CENTER_X radius _ Hside (Hcos _) Hlen)).
    - exact (proj1 (tip_near MATRIX_CENTER_Y radius _ Hside (Hsin _) Hlen)). }
  constructor.
  { apply Hhand.
    - exact (proj1 (tip_near MATRIX_CENTER_X radius _ Hside (Hcos _) Hlen)).
    - exact (proj1 (tip_near MATRIX_CENTER_Y radius _ Hside (Hsin _) Hlen)). }
  constructor; [exact I|]. constructor; [exact I|]. constructor.
Qed.

(** X27.  For the hour, minute and second of a [struct tm], seconds up to
    60, no angle wraps in its byte: the hour angle is 21 times the hour on
    the twelve-hour dial, the minute and second angles are 4 times the
    minute and the second; and the tick at the hour angle is one of the
    ticks drawn. *)
Theorem clock_angles_do_not_wrap (localTime : tm) :
  0 <= tm_hour localTime -> 0 <= tm_min localTime < 60 ->
  0 <= tm_sec localTime <= 60 ->
  hourAngle (tm_hour localTime) = 21 * (tm_hour localTime mod 12) /\
  minuteAngle (tm_min localTime) = 4 * tm_min localTime /\
  secondAngle (tm_sec localTime) = 4 * tm_sec localTime /\
  In (tick cos8 sin8_C MATRIX_CENTER_X MATRIX_CENTER_Y
        (hourAngle (tm_hour localTime)))
     (tick_loop cos8 sin8_C MATRIX_CENTER_X MATRIX_CENTER_Y 0).
Proof.
  intros Hh Hm Hs.
  assert (hourAngle (tm_hour localTime) = 21 * (tm_hour localTime mod 12)) as Hha.
  { unfold hourAngle, uint8. rewrite Z.rem_mod_nonneg by lia.
    pose proof (Z.mod_pos_bound (tm_hour localTime) 12 ltac:(lia)).
    rewrite Z.mod_small; lia. }
  repeat split.
  - exact Hha.
  - unfold minuteAngle, uint8. rewrite Z.mod_small; lia.
  - unfold secondAngle, uint8. rewrite Z.mod_small; lia.
  - rewrite Hha.
    pose proof (Z.mod_pos_bound (tm_hour localTime) 12 ltac:(lia)) as Hb.
    rewrite (tick_loop_lt 0 21), (tick_loop_lt 21 42), (tick_loop_lt 42 63),
      (tick_loop_lt 63 84), (tick_loop_lt 84 105), (tick_loop_lt 105 126),
      (tick_loop_lt 126 147), (tick_loop_lt 147 168), (tick_loop_lt 168 189),
      (tick_loop_lt 189 210), (tick_loop_lt 210 231), (tick_loop_lt 231 252),
      (tick_loop_ge 252) by lia.
    assert (tm_hour localTime mod 12 = 0 \/ tm_hour localTime mod 12 = 1 \/
            tm_hour localTime mod 12 = 2 \/ tm_hour localTime mod 12 = 3 \/
            tm_hour localTime mod 12 = 4 \/ tm_hour localTime mod 12 = 5 \/
            tm_hour localTime mod 12 = 6 \/ tm_hour localTime mod 12 = 7 \/
            tm_hour localTime mod 12 = 8 \/ tm_hour localTime mod 12 = 9 \/
            tm_hour localTime mod 12 = 10 \/ tm_hour localTime mod 12 = 11)
      as Hcases by lia.
    cbn [In].
    repeat (destruct Hcases as [->|Hcases]; [tauto|]).
    rewrite Hcases. tauto.
Qed.

(** X28.  After the seven calls for the face and the hands, [Draw] draws
    exactly twelve ticks, at the angles 0, 21, ..., 231, none of which
    wraps in the conversion to a byte. *)
Theorem clock_draws_twelve_ticks (localTime : tm) :
  drop 7 (Draw cos8 sin8 sin8_C MATRIX_CENTER_X MATRIX_CENTER_Y localTime)
  = (fun i => tick cos8 sin8_C MATRIX_CENTER_X MATRIX_CENTER_Y (21 * i))
    <$> seqZ 0 12 /\
  Forall (fun i => uint8 (21 * i) = 21 * i) (seqZ 0 12).
Proof.
  split.
  - unfold Draw. cbn [drop app].
    rewrite (tick_loop_lt 0 21), (tick_loop_lt 21 42), (tick_loop_lt 42 63),
      (tick_loop_lt 63 84), (tick_loop_lt 84 105), (tick_loop_lt 105 126),
      (tick_loop_lt 126 147), (tick_loop_lt 147 168), (tick_loop_lt 168 189),
      (tick_loop_lt 189 210), (tick_loop_lt 210 231), (tick_loop_lt 231 252),
      (tick_loop_ge 252) by lia.
    reflexivity.
  - repeat constructor.
Qed.

End ClockFacts.

Lemma triangle8_is_byte : Clock.is_byte triangle8.
Proof.
  intros a. unfold triangle8.
  pose proof (Z.mod_pos_bound a 256 ltac:(lia)). lia.
Qed.

Lemma clock_lines_stay_on_the_face_witness :
  Forall (Clock.on_the_face (H := panel64x32) 32 16)
    (Clock.Draw (H := panel64x32) triangle8 triangle8 triangle8 32 16
       (Clock.mktm 13 30 59)).
Proof.
  apply clock_lines_stay_on_the_face.
  - vm_compute. discriminate.
  - exact triangle8_is_byte.
  - exact triangle8_is_byte.
  - exact triangle8_is_byte.
Defined.

Lemma clock_angles_do_not_wrap_witness :
  Clock.hourAngle 13 = 21 /\ Clock.minuteAngle 30 = 120 /\
  Clock.secondAngle 59 = 236.
Proof.
  destruct (clock_angles_do_not_wrap (H := panel64x32) triangle8 triangle8
              triangle8 32 16 (Clock.mktm 13 30 59)) as (Hh & Hm & Hs & _).
  - cbn. lia.
  - cbn. lia.
  - cbn. lia.
  - exact (conj Hh (conj Hm Hs)).
Defined.
